(** * openedx.core.lib.call_stack_manager

    A shallow embedding of [src/openedx/core/lib/call_stack_manager.py]:
    the module-level ledger [STACK_BOOK], the exclusion patterns, the
    switch [TRACK_FLAG], the function [capture_call_stack], the adapters
    [CallStackMixin] / [CallStackManager] and the decorator [donottrack].

    Python [str] values are [string]; the ledger, a
    [collections.defaultdict(list)], is a [gmap string (list Stack)] with
    the create-on-read behaviour of [__getitem__] written out; module
    globals are threaded explicitly through a state-and-exception monad. *)

From Stdlib Require Import ZArith Ascii String.
From stdpp Require Import gmap strings list.

(** ** The [str] methods the module calls *)

Module Str.

Definition newline : ascii := "010"%char.
Definition comma : ascii := ","%char.

(** [s.replace(needle, empty)] for a one-character needle and the empty
    replacement. *)
Fixpoint replace_empty (needle : ascii) (s : string) : string :=
  match s with
  | EmptyString => EmptyString
  | String c s' =>
      if Ascii.eqb c needle then replace_empty needle s'
      else String c (replace_empty needle s')
  end.

(** [s.split(sep)] for a one-character separator: never an empty list. *)
Fixpoint split (sep : ascii) (s : string) : list string :=
  match s with
  | EmptyString => [EmptyString]
  | String c s' =>
      if Ascii.eqb c sep then EmptyString :: split sep s'
      else match split sep s' with
           | h :: t => String c h :: t
           | [] => [String c EmptyString]
           end
  end.

(** [s.lstrip()], [s.rstrip()] and [s.strip()]; the whitespace of a
    byte string is space, tab, line feed, vertical tab, form feed and
    carriage return, which is [Ascii.is_space]. *)
Fixpoint lstrip (s : string) : string :=
  match s with
  | EmptyString => EmptyString
  | String c s' => if Ascii.is_space c then lstrip s' else s
  end.

Fixpoint rstrip (s : string) : string :=
  match s with
  | EmptyString => EmptyString
  | String c s' =>
      match rstrip s' with
      | EmptyString => if Ascii.is_space c then EmptyString else String c EmptyString
      | r => String c r
      end
  end.

Definition strip (s : string) : string := rstrip (lstrip s).

(** Slice bounds as Python normalises them: a negative index counts
    from the end, and both ends are clamped to [0, len]. *)
Definition slice_index (len i : Z) : Z :=
  if (i <? 0)%Z then Z.max (i + len) 0 else Z.min i len.

(** [s[start:stop]]; [stop = None] is [s[start:]]. *)
Definition slice (s : string) (start : Z) (stop : option Z) : string :=
  let len := Z.of_nat (String.length s) in
  let lo := slice_index len start in
  let hi := match stop with Some j => slice_index len j | None => len end in
  String.substring (Z.to_nat lo) (Z.to_nat (hi - lo)%Z) s.

(** [s.count(c)] for a character. *)
Fixpoint count (c : ascii) (s : string) : nat :=
  match s with
  | EmptyString => 0
  | String d s' => (if Ascii.eqb d c then 1 else 0) + count c s'
  end.

(** [c in s] for a character. *)
Fixpoint mem (c : ascii) (s : string) : bool :=
  match s with
  | EmptyString => false
  | String d s' => Ascii.eqb d c || mem c s'
  end.

End Str.

(** ** The fragment of [re] the module uses

    [EXCLUDE] only uses the anchors [^] and [$], the wildcard [.], the
    postfix [*] and literal characters.  [compile] reads that fragment,
    [rmatch] is [pattern.match(s)]: the pattern has to match at the start
    of [s] (a prefix), [.] matches anything but a line feed, [^] matches
    at position 0 and [$] at the end or before a final line feed. *)

Module Re.

Inductive atom := Lit (c : ascii) | AnyChar.

Inductive item := Bol | Eol | One (a : atom) | Star (a : atom).

Definition pattern := list item.

Definition atom_of (c : ascii) : atom :=
  if Ascii.eqb c "."%char then AnyChar else Lit c.

Fixpoint compile (s : string) : pattern :=
  match s with
  | EmptyString => []
  | String c s' =>
      if Ascii.eqb c "^"%char then Bol :: compile s'
      else if Ascii.eqb c "$"%char then Eol :: compile s'
      else match s' with
           | String star s'' =>
               if Ascii.eqb star "*"%char then Star (atom_of c) :: compile s''
               else One (atom_of c) :: compile s'
           | EmptyString => [One (atom_of c)]
           end
  end.

Definition atom_ok (a : atom) (c : ascii) : bool :=
  match a with
  | Lit d => Ascii.eqb c d
  | AnyChar => negb (Ascii.eqb c Str.newline)
  end.

Definition at_end (s : string) : bool :=
  match s with
  | EmptyString => true
  | String c EmptyString => Ascii.eqb c Str.newline
  | _ => false
  end.

(** [go p at_start s]: does [p] match a prefix of [s], where [at_start]
    says whether [s] is the whole subject (position 0). *)
Fixpoint go (p : pattern) : bool → string → bool :=
  match p with
  | [] => λ _ _, true
  | Bol :: p' => λ at_start s, at_start && go p' at_start s
  | Eol :: p' => λ at_start s, at_end s && go p' at_start s
  | One a :: p' => λ _ s,
      match s with
      | String c s' => atom_ok a c && go p' false s'
      | EmptyString => false
      end
  | Star a :: p' =>
      fix star (at_start : bool) (s : string) {struct s} : bool :=
        go p' at_start s ||
        match s with
        | String c s' => atom_ok a c && star false s'
        | EmptyString => false
        end
  end.

Definition rmatch (p : pattern) (s : string) : bool := go p true s.

(** A word the atoms accept, character by character. *)
Fixpoint accepts (atoms : list atom) (w : string) : bool :=
  match atoms, w with
  | [], EmptyString => true
  | a :: atoms', String c w' => atom_ok a c && accepts atoms' w'
  | _, _ => false
  end.

(** The shape of every entry of [EXCLUDE]: [^.*], atoms, [.*$]. *)
Definition anywhere (atoms : list atom) : pattern :=
  Bol :: Star AnyChar :: (One <$> atoms) ++ [Star AnyChar; Eol].

End Re.

(** ** Values, exceptions and the interpreter state *)

(** The values the wrapped callables hand back. *)
Inductive pyval :=
  | PyNone
  | PyBool (b : bool)
  | PyInt (n : Z)
  | PyStr (s : string).

(** [IndexError] is what [list.__getitem__] raises; anything the
    wrapped callables raise is an [Exception] with its message. *)
Inductive pyexc :=
  | IndexError
  | Exception (msg : string).

Inductive outcome (A : Type) :=
  | Return (a : A)
  | Raise (e : pyexc).
Arguments Return {A} a.
Arguments Raise {A} e.

(** A frame is the tuple [(file path, line number, context)], all three
    of them [str]; a stack is a list of frames. *)
Definition Frame : Type := string * string * string.
Definition Stack : Type := list Frame.

(** What [log.info] received: the format string applied to the model
    name, and the ledger itself. *)
Inductive log_record :=
  | LogNewCall (current_model : string)
  | LogBook (book : gmap string (list Stack)).

(** [l[i]] on a list. *)
Definition getitem {A} (l : list A) (i : nat) : outcome A :=
  match l !! i with
  | Some x => Return x
  | None => Raise IndexError
  end.

Definition outcome_bind {A B} (o : outcome A) (k : A → outcome B) : outcome B :=
  match o with
  | Return a => k a
  | Raise e => Raise e
  end.

(** [EXCLUDE] and [REGULAR_EXPS], lines 59-60. *)
Definition EXCLUDE : list string :=
  ["^.*python2.7.*$"; "^.*call_stack_manager.*$";
   "^.*<exec_function>.*$"; "^.*exec_code_object.*$"].

Definition REGULAR_EXPS : list Re.pattern := Re.compile <$> EXCLUDE.

(** The guard of the comprehension, line 78:
    [any(reg.match(frame) for reg in REGULAR_EXPS)]. *)
Definition excluded (frame : string) : bool :=
  existsb (λ reg, Re.rmatch reg frame) REGULAR_EXPS.

(** The element expression of the comprehension, lines 74-76.  The three
    subscripts are evaluated left to right; [split] never returns an empty
    list, so only [[1]] and [[2]] can raise. *)
Definition frame_tuple (frame : string) : outcome Frame :=
  outcome_bind (getitem (Str.split Str.comma frame) 0) (λ p0,
  outcome_bind (getitem (Str.split Str.comma frame) 1) (λ p1,
  outcome_bind (getitem (Str.split Str.comma frame) 2) (λ p2,
  Return (Str.slice (Str.strip p0) 6%Z (Some (-1)%Z),
          Str.slice (Str.strip p1) 6%Z None,
          Str.slice (Str.strip p2) 3%Z None)))).

(** The outer comprehension over the frames, in order: a frame that an
    exclusion pattern matches is skipped, any other contributes its tuple,
    and the first tuple that raises ends the comprehension. *)
Fixpoint comprehension (frames : list string) : outcome Stack :=
  match frames with
  | [] => Return []
  | frame :: rest =>
      if excluded frame then comprehension rest
      else outcome_bind (frame_tuple frame) (λ fr,
           outcome_bind (comprehension rest) (λ st, Return (fr :: st)))
  end.

(** [temp_call_stack], lines 74-78, as a function of the list that
    [traceback.format_stack()] returned: the inner comprehension removes
    every line feed of every entry first. *)
Definition temp_call_stack (format_stack : list string) : outcome Stack :=
  comprehension (Str.replace_empty Str.newline <$> format_stack).

(** [collections.defaultdict(list).__getitem__]: a missing key is
    inserted with a fresh empty list before it is returned. *)
Definition defaultdict_getitem (k : string) (d : gmap string (list Stack))
  : list Stack * gmap string (list Stack) :=
  match d !! k with
  | Some l => (l, d)
  | None => ([], <[k := []]> d)
  end.

Section Tracer.

(** Whatever else the process holds (the database behind the models). *)
Context {Host : Type}.

Record World := mkWorld {
  STACK_BOOK : gmap string (list Stack);
  TRACK_FLAG : bool;
  log : list log_record;
  host : Host
}.

(** Lines 56 and 62: the module as imported. *)
Definition init (h : Host) : World :=
  {| STACK_BOOK := ∅; TRACK_FLAG := true; log := []; host := h |}.

Definition set_STACK_BOOK (b : gmap string (list Stack)) (w : World) : World :=
  {| STACK_BOOK := b; TRACK_FLAG := TRACK_FLAG w; log := log w; host := host w |}.

Definition set_TRACK_FLAG (f : bool) (w : World) : World :=
  {| STACK_BOOK := STACK_BOOK w; TRACK_FLAG := f; log := log w; host := host w |}.

Definition log_info (r : log_record) (w : World) : World :=
  {| STACK_BOOK := STACK_BOOK w; TRACK_FLAG := TRACK_FLAG w;
     log := log w ++ [r]; host := host w |}.

(** Computations over the module globals that may raise. *)
Definition M (A : Type) : Type := World → outcome A * World.

#[global] Instance M_ret : MRet M := λ A a w, (Return a, w).

#[global] Instance M_bind : MBind M := λ A B k m w,
  match m w with
  | (Return a, w') => k a w'
  | (Raise e, w') => (Raise e, w')
  end.

Definition raise {A} (e : pyexc) : M A := λ w, (Raise e, w).

Definition lift {A} (o : outcome A) : M A := λ w, (o, w).

Definition modify (f : World → World) : M unit := λ w, (Return tt, f w).

(** Lines 80-84: the membership test reads [STACK_BOOK[current_model]]
    (which creates the entry when it is missing), and on a miss the
    stack is appended to the entry and two records are logged.  The
    result tells whether the body of the [if] ran. *)
Definition record (current_model : string) (stack : Stack) : M bool :=
  λ w,
    let '(entry, book) := defaultdict_getitem current_model (STACK_BOOK w) in
    if decide (stack ∈ entry) then (Return false, set_STACK_BOOK book w)
    else
      let '(entry', book') := defaultdict_getitem current_model book in
      let book'' := <[current_model := entry' ++ [stack]]> book' in
      (Return true,
       log_info (LogBook book'')
         (log_info (LogNewCall current_model) (set_STACK_BOOK book'' w))).

(** [capture_call_stack], lines 65-84; [format_stack] is what
    [traceback.format_stack()] returns at the call. *)
Definition capture_call_stack (format_stack : list string)
    (current_model : string) : M pyval :=
  stack ← lift (temp_call_stack format_stack);
  record current_model stack;;
  mret PyNone.

(** [CallStackMixin], lines 87-103.  [type_self] is [str(type(self))]
    and [super_save] / [super_delete] the method of the next class. *)
Definition CallStackMixin_save (super_save : list pyval → M pyval)
    (format_stack : list string) (type_self : string)
    (args : list pyval) : M pyval :=
  capture_call_stack format_stack type_self;;
  super_save args.

Definition CallStackMixin_delete (super_delete : list pyval → M pyval)
    (format_stack : list string) (type_self : string)
    (args : list pyval) : M pyval :=
  capture_call_stack format_stack type_self;;
  super_delete args.

(** [CallStackManager.get_query_set], lines 106-115; [model] is
    [str(self.model)]. *)
Definition CallStackManager_get_query_set (super_get_query_set : M pyval)
    (format_stack : list string) (model : string) : M pyval :=
  capture_call_stack format_stack model;;
  super_get_query_set.

(** [donottrack], lines 118-135: the decorator returns [wrapper_func]. *)
Definition wrapper_func (func : list pyval → M pyval)
    (args : list pyval) : M pyval :=
  modify (set_TRACK_FLAG false);;
  func args;;
  modify (set_TRACK_FLAG true);;
  mret PyNone.

Definition donottrack (func : list pyval → M pyval) : list pyval → M pyval :=
  wrapper_func func.

End Tracer.

Arguments World : clear implicits.
Arguments M : clear implicits.

(** ** The layout of [traceback.format_stack()]

    Each entry is [  File "<filename>", line <lineno>, in <name>] and a
    line feed, followed, when the source line is known, by four spaces,
    the stripped source line and a line feed. *)

Definition dquote : string := String (ascii_of_nat 34) EmptyString.

Definition nl : string := String Str.newline EmptyString.

Definition format_entry (filename lineno name : string) (line : option string) : string :=
  "  File " +:+ dquote +:+ filename +:+ dquote +:+ ", line " +:+ lineno
  +:+ ", in " +:+ name +:+ nl
  +:+ match line with
      | Some l => "    " +:+ Str.strip l +:+ nl
      | None => EmptyString
      end.

(** A frame of the interpreter: file name, line number, function name
    and, when known, the source line. *)
Definition entry : Type := string * string * string * option string.

Definition format_stack (frames : list entry) : list string :=
  (λ '(filename, lineno, name, line), format_entry filename lineno name line)
    <$> frames.

(** The layout of a frame line, [File "<path>", line <n>, in <context>]. *)
Definition frame_line (path n context : string) : string :=
  "File " +:+ dquote +:+ path +:+ dquote +:+ ", line " +:+ n +:+ ", in " +:+ context.

(** ** Vocabulary of the statements *)

(** The entry of a class: a key that was never read has none. *)
Definition ledger_entry (classId : string) (book : gmap string (list Stack)) : list Stack :=
  default [] (book !! classId).

(** No entry holds the same stack twice. *)
Definition ledger_ok (book : gmap string (list Stack)) : Prop :=
  ∀ k l, book !! k = Some l → NoDup l.

(** Every entry of [b] is still there in [b'], as a prefix of the new
    entry: stacks are only ever appended. *)
Definition ledger_extends (b b' : gmap string (list Stack)) : Prop :=
  ∀ k l, b !! k = Some l → ∃ l', b' !! k = Some (l ++ l').

(** What a computation leaves behind preserves the ledger. *)
Definition keeps_ledger {Host A} (m : M Host A) : Prop :=
  ∀ w, ledger_ok (STACK_BOOK w) →
       ledger_ok (STACK_BOOK (m w).2) ∧
       ledger_extends (STACK_BOOK w) (STACK_BOOK (m w).2).

(** The pieces of a frame between its commas; a frame is parsable when
    it has at least three of them. *)
Definition pieces (frame : string) : list string := Str.split Str.comma frame.

Definition piece (frame : string) (i : nat) : string :=
  default EmptyString (pieces frame !! i).

Definition parsable (frame : string) : Prop := 3 ≤ length (pieces frame).

(** The tuple of a parsable frame, without the subscript checks. *)
Definition frame_fields (frame : string) : Frame :=
  (Str.slice (Str.strip (piece frame 0)) 6%Z (Some (-1)%Z),
   Str.slice (Str.strip (piece frame 1)) 6%Z None,
   Str.slice (Str.strip (piece frame 2)) 3%Z None).

(** [lit in s] for strings. *)
Definition contains (lit s : string) : Prop :=
  ∃ pre post, s = pre +:+ lit +:+ post.


(** A frame the comprehension keeps. *)
Definition kept (frame : string) : Prop := excluded frame = false.

(** A run of captures, one [(format_stack, current_model)] per call;
    a capture that raises leaves the globals as they were. *)
Fixpoint captures {Host} (calls : list (list string * string)) (w : World Host) : World Host :=
  match calls with
  | [] => w
  | (format_stack, current_model) :: rest =>
      captures rest (capture_call_stack format_stack current_model w).2
  end.

(** ** Sample inputs *)

Definition ex_stack : list string :=
  [format_entry "/edx/app/manage.py" "12" "<module>" (Some "main()");
   format_entry "/edx/lib/python2.7/site.py" "3" "run" (Some "go()");
   format_entry "/edx/app/courseware/models.py" "148" "update" (Some "self.save()");
   format_entry "/edx/app/openedx/core/lib/call_stack_manager.py" "95" "save" None].

Definition ex_noise : list string :=
  [format_entry "/edx/lib/python2.7/site.py" "3" "run" (Some "go()");
   format_entry "<exec_function>" "1" "<module>" None;
   format_entry "/edx/app/openedx/core/lib/call_stack_manager.py" "95" "save" None].

Definition FrameA : Frame := ("/edx/app/manage.py", "2", "<module>    main()").
Definition FrameB : Frame := ("/edx/app/courseware/models.py", "48", "update    self.save()").

(** One entry as the interpreter formats it, for line 148 of a model. *)
Definition ex_entry : string :=
  format_entry "/edx/app/courseware/models.py" "148" "update" None.

(** A frame of the interpreter's own library, line feeds removed. *)
Definition ex_site : string :=
  Str.replace_empty Str.newline
    (format_entry "/edx/lib/python2.7/site.py" "3" "run" (Some "go()")).

(** The same frame as the interpreter formats it, line feeds and all. *)
Definition ex_site_entry : string :=
  format_entry "/edx/lib/python2.7/site.py" "3" "run" (Some "go()").

(** The frames of the interpreter behind the sample trace. *)
Definition ex_frames : list entry :=
  [("/edx/app/manage.py", "12", "<module>", Some "main()");
   ("/edx/lib/python2.7/site.py", "3", "run", Some "go()");
   ("/edx/app/courseware/models.py", "148", "update", Some "self.save()");
   ("/edx/app/openedx/core/lib/call_stack_manager.py", "95", "save", None)].


(** An operation of the host that returns what the host state holds. *)
Definition fetch : list pyval → M Z pyval :=
  λ _ w, (Return (PyInt (host w)), w).

(** A callable that raises and one that returns a value. *)
Definition boom {Host} : list pyval → M Host pyval := λ _, raise (Exception "boom").
Definition answer {Host} : list pyval → M Host pyval := λ _, mret (PyInt 42).

(** A callable that raises exactly when it finds the flag enabled. *)
Definition probe {Host} : list pyval → M Host pyval :=
  λ _ w, if TRACK_FLAG w then (Raise (Exception "TRACK_FLAG is True"), w)
         else (Return PyNone, w).

(** The module after [TRACK_FLAG = False], nothing recorded yet. *)
Definition suspended : World unit := set_TRACK_FLAG false (init tt).

(** The module after one capture of the sample stack. *)
Definition once : World unit := (capture_call_stack ex_stack "Widget" (init tt)).2.

(** The outcome of a computation depends on the host state only. *)
Definition reads_host_only {Host A} (m : M Host A) : Prop :=
  ∀ w1 w2, host w1 = host w2 → (m w1).1 = (m w2).1.

(** The ledger is sound in [w'] and extends the one of [w]. *)
Definition ledger_step {Host} (w w' : World Host) : Prop :=
  ledger_ok (STACK_BOOK w') ∧ ledger_extends (STACK_BOOK w) (STACK_BOOK w').

(** How often a stack occurs in an entry. *)
Definition occurrences (stack : Stack) (entry : list Stack) : nat :=
  length (filter (λ x, x = stack) entry).

(** The stack a trace normalises to, when the comprehension returns. *)
Definition normalized (format_stack : list string) : option Stack :=
  match temp_call_stack format_stack with
  | Return stack => Some stack
  | Raise _ => None
  end.

(** The stacks a run of captures offers to a class, in call order: the
    captures made for that class whose comprehension returned. *)
Definition offered (classId : string) (calls : list (list string * string))
  : list Stack :=
  omap (λ '(format_stack, current_model),
          if decide (current_model = classId) then normalized format_stack
          else None) calls.

(** An entry after one more stack was offered to it. *)
Definition add_stack (entry : list Stack) (stack : Stack) : list Stack :=
  if decide (stack ∈ entry) then entry else entry ++ [stack].

(** A list without its repetitions, every element at its first place. *)
Definition first_seen (l : list Stack) : list Stack :=
  reverse (remove_dups (reverse l)).

(** A piece of text a frame line can hold without changing its layout:
    no comma and no line feed. *)
Definition plain (s : string) : Prop :=
  Str.mem Str.comma s = false ∧ Str.mem Str.newline s = false.

(** No class is left with an empty entry. *)
Definition no_empty_entry (book : gmap string (list Stack)) : Prop :=
  ∀ k l, book !! k = Some l → l ≠ [].

(** How many [logging new call] records the log holds for a class. *)
Definition is_new_call (classId : string) (r : log_record) : bool :=
  match r with
  | LogNewCall current_model => bool_decide (current_model = classId)
  | LogBook _ => false
  end.

Definition new_calls (classId : string) (records : list log_record) : nat :=
  length (filter (λ r, is_new_call classId r = true) records).

(** ** The ledger: [record] *)

Section Ledger.

Context {Host : Type}.
Implicit Types (w : World Host) (book : gmap string (list Stack)).
Implicit Types (stack : Stack) (classId : string).

Lemma set_STACK_BOOK_id w : set_STACK_BOOK (STACK_BOOK w) w = w.
Proof. by destruct w. Qed.

Lemma defaultdict_getitem_entry classId book :
  (defaultdict_getitem classId book).1 = ledger_entry classId book.
Proof.
  unfold defaultdict_getitem, ledger_entry.
  by destruct (book !! classId).
Qed.

Lemma defaultdict_getitem_lookup classId book :
  (defaultdict_getitem classId book).2 !! classId
  = Some (ledger_entry classId book).
Proof.
  unfold defaultdict_getitem, ledger_entry.
  destruct (book !! classId) eqn:E; simpl; [done|].
  by rewrite lookup_insert_eq.
Qed.

(** A stack the entry already holds: nothing is written or logged. *)
Lemma record_duplicate classId stack w :
  stack ∈ ledger_entry classId (STACK_BOOK w) →
  record classId stack w = (Return false, w).
Proof.
  intros Hin. unfold record, defaultdict_getitem.
  unfold ledger_entry in Hin.
  destruct (STACK_BOOK w !! classId) as [l|] eqn:E; simpl in *.
  - destruct (decide (stack ∈ l)) as [_|?]; [|done].
    by rewrite set_STACK_BOOK_id.
  - by apply elem_of_nil in Hin.
Qed.

(** A stack the entry does not hold yet: appended, and logged twice. *)
Lemma record_new classId stack w :
  stack ∉ ledger_entry classId (STACK_BOOK w) →
  record classId stack w =
    let book' := <[classId := ledger_entry classId (STACK_BOOK w) ++ [stack]]>
                   (STACK_BOOK w) in
    (Return true,
     log_info (LogBook book')
       (log_info (LogNewCall classId) (set_STACK_BOOK book' w))).
Proof.
  intros Hin. unfold record, defaultdict_getitem.
  unfold ledger_entry in *.
  destruct (STACK_BOOK w !! classId) as [l|] eqn:E; simpl in *.
  - destruct (decide (stack ∈ l)) as [?|_]; [done|]. by rewrite E.
  - destruct (decide (stack ∈ [])) as [?|_]; [done|].
    rewrite lookup_insert_eq. simpl. by rewrite insert_insert_eq.
Qed.

Lemma record_cases classId stack w :
  (stack ∈ ledger_entry classId (STACK_BOOK w) ∧
   record classId stack w = (Return false, w)) ∨
  ((stack ∉ ledger_entry classId (STACK_BOOK w)) ∧
   (record classId stack w).1 = Return true ∧
   STACK_BOOK (record classId stack w).2 =
     (<[classId := ledger_entry classId (STACK_BOOK w) ++ [stack]]> (STACK_BOOK w))).
Proof.
  destruct (decide (stack ∈ ledger_entry classId (STACK_BOOK w))) as [Hin|Hin].
  - left. split; [done|]. by apply record_duplicate.
  - right. split; [done|]. by rewrite record_new.
Qed.

Lemma ledger_entry_insert classId l book :
  ledger_entry classId (<[classId := l]> book) = l.
Proof. unfold ledger_entry. by rewrite lookup_insert_eq. Qed.

Lemma ledger_entry_insert_ne classId k l book :
  classId ≠ k → ledger_entry k (<[classId := l]> book) = ledger_entry k book.
Proof. intros. unfold ledger_entry. by rewrite lookup_insert_ne. Qed.

Lemma ledger_ok_empty : ledger_ok ∅.
Proof. intros k l H. by rewrite lookup_empty in H. Qed.

Lemma ledger_ok_entry classId book :
  ledger_ok book → NoDup (ledger_entry classId book).
Proof.
  intros Hok. unfold ledger_entry.
  destruct (book !! classId) eqn:E; simpl; [by eapply Hok | constructor].
Qed.

Lemma ledger_extends_refl book : ledger_extends book book.
Proof. intros k l H. exists []. by rewrite app_nil_r. Qed.

Lemma ledger_extends_trans b1 b2 b3 :
  ledger_extends b1 b2 → ledger_extends b2 b3 → ledger_extends b1 b3.
Proof.
  intros H12 H23 k l H.
  destruct (H12 k l H) as [l1 H1].
  destruct (H23 k _ H1) as [l2 H2].
  exists (l1 ++ l2). by rewrite app_assoc.
Qed.

Lemma ledger_extends_append classId stack book :
  ledger_extends book
    (<[classId := ledger_entry classId book ++ [stack]]> book).
Proof.
  intros k l H. destruct (decide (classId = k)) as [->|Hne].
  - exists [stack]. rewrite lookup_insert_eq.
    unfold ledger_entry. by rewrite H.
  - exists []. rewrite lookup_insert_ne by done. by rewrite app_nil_r.
Qed.

Lemma ledger_ok_append classId stack book :
  ledger_ok book →
  stack ∉ ledger_entry classId book →
  ledger_ok (<[classId := ledger_entry classId book ++ [stack]]> book).
Proof.
  intros Hok Hnot k l H. destruct (decide (classId = k)) as [->|Hne].
  - rewrite lookup_insert_eq in H. injection H as <-.
    apply NoDup_app. split; [by apply ledger_ok_entry|].
    split; [|apply NoDup_singleton].
    intros x Hx Hx'. apply list_elem_of_singleton in Hx'. by subst.
  - rewrite lookup_insert_ne in H by done. by eapply Hok.
Qed.

Lemma record_keeps_ledger classId stack : keeps_ledger (record (Host:=Host) classId stack).
Proof.
  intros w Hok.
  destruct (record_cases classId stack w) as [[_ ->]|(Hnot & _ & ->)]; simpl.
  - split; [done | apply ledger_extends_refl].
  - split; [by apply ledger_ok_append | apply ledger_extends_append].
Qed.

End Ledger.

(** ** The comprehension: which frames are kept, and when it raises *)

Section Normalizer.

Implicit Types (frame : string) (frames : list string).

Lemma split_nonempty sep s : Str.split sep s ≠ [].
Proof.
  destruct s as [|c s]; simpl; [done|].
  destruct (Ascii.eqb c sep); [done|].
  by destruct (Str.split sep s).
Qed.

Lemma frame_tuple_parsable frame :
  parsable frame → frame_tuple frame = Return (frame_fields frame).
Proof.
  unfold parsable, frame_tuple, frame_fields, piece, pieces, getitem.
  destruct (Str.split Str.comma frame) as [|p0 [|p1 [|p2 rest]]];
    simpl; intros H; try lia; done.
Qed.

Lemma frame_tuple_unparsable frame :
  ¬ parsable frame → frame_tuple frame = Raise IndexError.
Proof.
  unfold parsable, frame_tuple, pieces, getitem.
  destruct (Str.split Str.comma frame) as [|p0 [|p1 [|p2 rest]]];
    simpl; intros H; try done.
  exfalso. apply H. lia.
Qed.

Lemma frame_tuple_return frame fr :
  frame_tuple frame = Return fr → parsable frame ∧ fr = frame_fields frame.
Proof.
  intros H. destruct (decide (parsable frame)) as [Hp|Hp].
  - rewrite frame_tuple_parsable in H by done. by injection H as <-.
  - by rewrite frame_tuple_unparsable in H.
Qed.

(** The comprehension never raises anything but [IndexError]. *)
Lemma comprehension_raise_IndexError frames e :
  comprehension frames = Raise e → e = IndexError.
Proof.
  induction frames as [|frame rest IH]; simpl; [done|].
  destruct (excluded frame); [done|].
  destruct (decide (parsable frame)) as [Hp|Hp].
  - rewrite frame_tuple_parsable by done. simpl.
    destruct (comprehension rest); simpl; [done|].
    intros [= <-]. by apply IH.
  - rewrite frame_tuple_unparsable by done. simpl. by intros [= <-].
Qed.

(** When every kept frame is parsable, the result is the tuples of
    the kept frames, in their order. *)
Lemma comprehension_parsable frames :
  Forall (λ frame, kept frame → parsable frame) frames →
  comprehension frames = Return (frame_fields <$> filter kept frames).
Proof.
  induction 1 as [|frame rest Hp _ IH]; [done|].
  cbn [comprehension]. destruct (excluded frame) eqn:E.
  - rewrite IH. rewrite filter_cons_False; [done|].
    unfold kept. by rewrite E.
  - rewrite frame_tuple_parsable by auto. simpl. rewrite IH. simpl.
    by rewrite filter_cons_True.
Qed.

(** A kept frame that is not parsable makes the comprehension raise. *)
Lemma comprehension_unparsable frames :
  Exists (λ frame, kept frame ∧ ¬ parsable frame) frames →
  comprehension frames = Raise IndexError.
Proof.
  induction 1 as [frame rest [Hk Hp]|frame rest _ IH]; simpl.
  - unfold kept in Hk. rewrite Hk. by rewrite frame_tuple_unparsable by done.
  - destruct (excluded frame); [done|].
    destruct (frame_tuple frame) as [fr|e] eqn:E; simpl.
    + by rewrite IH.
    + destruct (decide (parsable frame)) as [Hp|Hp].
      * by rewrite frame_tuple_parsable in E by done.
      * rewrite frame_tuple_unparsable in E by done. by injection E as <-.
Qed.

Lemma comprehension_return frames stack :
  comprehension frames = Return stack →
  Forall (λ frame, kept frame → parsable frame) frames ∧
  stack = frame_fields <$> filter kept frames.
Proof.
  intros H.
  assert (Forall (λ frame, kept frame → parsable frame) frames) as Hall.
  { apply Forall_forall. intros frame Hin Hk.
    destruct (decide (parsable frame)) as [Hp|Hp]; [done|].
    rewrite comprehension_unparsable in H; [done|].
    apply Exists_exists. eauto. }
  split; [done|].
  rewrite comprehension_parsable in H by done. by injection H.
Qed.

(** A list of excluded frames gives the empty stack. *)
Lemma comprehension_all_excluded frames :
  Forall (λ frame, excluded frame = true) frames →
  comprehension frames = Return [].
Proof.
  induction 1 as [|frame rest E _ IH]; simpl; [done|]. by rewrite E.
Qed.

End Normalizer.

(** ** Strings and patterns *)

Section Strings.

Implicit Types (s pre post w : string) (c : ascii).

Lemma append_nil_l s : EmptyString +:+ s = s.
Proof. reflexivity. Qed.

Lemma append_cons c s s' : String c s +:+ s' = String c (s +:+ s').
Proof. reflexivity. Qed.

Lemma append_assoc s1 s2 s3 : (s1 +:+ s2) +:+ s3 = s1 +:+ s2 +:+ s3.
Proof.
  induction s1 as [|c s1 IH]; [done|].
  rewrite !append_cons. by rewrite IH.
Qed.

Lemma mem_append c s s' : Str.mem c (s +:+ s') = Str.mem c s || Str.mem c s'.
Proof.
  induction s as [|d s IH]; [done|].
  rewrite append_cons. simpl. rewrite IH. by rewrite orb_assoc.
Qed.

Lemma replace_empty_append c s s' :
  Str.replace_empty c (s +:+ s')
  = Str.replace_empty c s +:+ Str.replace_empty c s'.
Proof.
  induction s as [|d s IH]; [done|].
  rewrite append_cons. simpl. destruct (Ascii.eqb d c); [done|].
  rewrite append_cons. by rewrite IH.
Qed.

Lemma replace_empty_absent c s :
  Str.mem c s = false → Str.replace_empty c s = s.
Proof.
  induction s as [|d s IH]; simpl; [done|].
  destruct (Ascii.eqb d c); simpl; [done|]. intros H. by rewrite IH.
Qed.

Lemma replace_empty_mem c s : Str.mem c (Str.replace_empty c s) = false.
Proof.
  induction s as [|d s IH]; simpl; [done|].
  destruct (Ascii.eqb d c) eqn:E; [done|]. simpl. by rewrite E.
Qed.

(** One unfolding of the loop of a starred atom. *)
Lemma go_star a p b s :
  Re.go (Re.Star a :: p) b s =
  Re.go p b s ||
  match s with
  | String c s' => Re.atom_ok a c && Re.go (Re.Star a :: p) false s'
  | EmptyString => false
  end.
Proof. by destruct s. Qed.

(** [.*$] accepts whatever has no line feed. *)
Lemma go_rest s b :
  Str.mem Str.newline s = false →
  Re.go [Re.Star Re.AnyChar; Re.Eol] b s = true.
Proof.
  revert b. induction s as [|c s IH]; intros b H; [done|].
  rewrite go_star. simpl in H. apply orb_false_elim in H as [Hc Hs].
  rewrite (IH false Hs). cbn [Re.atom_ok]. rewrite Hc. simpl.
  by rewrite orb_true_r.
Qed.

(** The atoms consume a word they accept. *)
Lemma go_atoms atoms w p post b :
  Re.accepts atoms w = true →
  (∀ b', Re.go p b' post = true) →
  Re.go ((Re.One <$> atoms) ++ p) b (w +:+ post) = true.
Proof.
  revert w b. induction atoms as [|a atoms IH]; intros [|c w] b Hw Hp;
    simpl in Hw; try done.
  apply andb_prop in Hw as [Ha Hw].
  rewrite append_cons. cbn [fmap list_fmap app Re.go].
  rewrite Ha. simpl. by apply IH.
Qed.

(** [.*] skips a prefix without a line feed. *)
Lemma go_skip pre p s b :
  Str.mem Str.newline pre = false →
  (∀ b', Re.go p b' s = true) →
  Re.go (Re.Star Re.AnyChar :: p) b (pre +:+ s) = true.
Proof.
  revert b. induction pre as [|c pre IH]; intros b H Hp.
  - rewrite append_nil_l, go_star. by rewrite Hp.
  - rewrite append_cons, go_star.
    simpl in H. apply orb_false_elim in H as [Hc Hs].
    rewrite (IH false Hs Hp). cbn [Re.atom_ok]. rewrite Hc. simpl.
    by rewrite orb_true_r.
Qed.

(** A pattern [^.*atoms.*$] matches every subject without a line feed
    that contains a word the atoms accept. *)
Lemma rmatch_anywhere atoms pre w post :
  Str.mem Str.newline pre = false →
  Str.mem Str.newline post = false →
  Re.accepts atoms w = true →
  Re.rmatch (Re.anywhere atoms) (pre +:+ w +:+ post) = true.
Proof.
  intros Hpre Hpost Hw. unfold Re.rmatch, Re.anywhere.
  cbn [Re.go]. cbn [andb].
  apply (go_skip pre _ _ true Hpre). intros b'.
  apply go_atoms; [done|]. intros b''. by apply go_rest.
Qed.

Lemma excluded_unfold frame :
  excluded frame =
  Re.rmatch (Re.compile "^.*python2.7.*$") frame ||
  (Re.rmatch (Re.compile "^.*call_stack_manager.*$") frame ||
   (Re.rmatch (Re.compile "^.*<exec_function>.*$") frame ||
    (Re.rmatch (Re.compile "^.*exec_code_object.*$") frame || false))).
Proof. reflexivity. Qed.

(** The second pattern: a frame that names the tracer's own module,
    wherever in its text, is excluded. *)
Lemma excluded_own_module pre post :
  Str.mem Str.newline pre = false →
  Str.mem Str.newline post = false →
  excluded (pre +:+ "call_stack_manager" +:+ post) = true.
Proof.
  intros Hpre Hpost. rewrite excluded_unfold.
  change (Re.compile "^.*call_stack_manager.*$")
    with (Re.anywhere (Re.Lit <$> list_ascii_of_string "call_stack_manager")).
  rewrite rmatch_anywhere by done. by rewrite orb_true_r.
Qed.

(** The same on the raw text, whose line feeds are removed first. *)
Lemma excluded_own_module_raw pre post :
  excluded (Str.replace_empty Str.newline
              (pre +:+ "call_stack_manager" +:+ post)) = true.
Proof.
  rewrite !replace_empty_append.
  rewrite (replace_empty_absent _ "call_stack_manager") by done.
  apply excluded_own_module; apply replace_empty_mem.
Qed.

End Strings.

(** ** Sequencing, the entry point and the wrappers *)

Section Capture.

Context {Host : Type}.
Implicit Types (w : World Host) (format_stack : list string).
Implicit Types (current_model : string) (args : list pyval).

Lemma bind_Return {A B} (m : M Host A) (k : A → M Host B) w a w' :
  m w = (Return a, w') → (m ≫= k) w = k a w'.
Proof. intros H. unfold mbind, M_bind. by rewrite H. Qed.

Lemma bind_Raise {A B} (m : M Host A) (k : A → M Host B) w e w' :
  m w = (Raise e, w') → (m ≫= k) w = (Raise e, w').
Proof. intros H. unfold mbind, M_bind. by rewrite H. Qed.

Lemma record_Return current_model stack w :
  ∃ b, (record current_model stack w).1 = Return b.
Proof.
  destruct (record_cases current_model stack w) as [[_ ->]|(_ & -> & _)]; eauto.
Qed.

(** The comprehension succeeded: the stack goes to [record]. *)
Lemma capture_Return format_stack current_model stack w :
  temp_call_stack format_stack = Return stack →
  capture_call_stack format_stack current_model w
  = (Return PyNone, (record current_model stack w).2).
Proof.
  intros H. unfold capture_call_stack.
  rewrite (bind_Return _ _ w stack w) by (unfold lift; by rewrite H).
  destruct (record current_model stack w) as [o w'] eqn:E.
  destruct (record_Return current_model stack w) as [b Hb].
  rewrite E in Hb. simpl in Hb. subst o.
  by rewrite (bind_Return _ _ w b w').
Qed.

(** The comprehension raised: nothing else runs. *)
Lemma capture_Raise format_stack current_model e w :
  temp_call_stack format_stack = Raise e →
  capture_call_stack format_stack current_model w = (Raise e, w).
Proof.
  intros H. unfold capture_call_stack.
  by rewrite (bind_Raise _ _ w e w) by (unfold lift; by rewrite H).
Qed.

(** [record] never looks at the flag. *)
Lemma record_set_TRACK_FLAG current_model stack f w :
  record current_model stack (set_TRACK_FLAG f w)
  = ((record current_model stack w).1,
     set_TRACK_FLAG f (record current_model stack w).2).
Proof.
  unfold record. simpl.
  destruct (defaultdict_getitem current_model (STACK_BOOK w)) as [entry book].
  destruct (decide (stack ∈ entry)); [done|].
  by destruct (defaultdict_getitem current_model book).
Qed.

(** Neither does [capture_call_stack]: the same outcome and the same
    ledger and log, whatever the flag. *)
Lemma capture_set_TRACK_FLAG format_stack current_model f w :
  capture_call_stack format_stack current_model (set_TRACK_FLAG f w)
  = ((capture_call_stack format_stack current_model w).1,
     set_TRACK_FLAG f (capture_call_stack format_stack current_model w).2).
Proof.
  destruct (temp_call_stack format_stack) as [stack|e] eqn:E.
  - rewrite !(capture_Return _ _ stack) by done. simpl.
    by rewrite record_set_TRACK_FLAG.
  - by rewrite !(capture_Raise _ _ e) by done.
Qed.

Lemma record_host_flag current_model stack w :
  host (record current_model stack w).2 = host w ∧
  TRACK_FLAG (record current_model stack w).2 = TRACK_FLAG w.
Proof.
  unfold record.
  destruct (defaultdict_getitem current_model (STACK_BOOK w)) as [entry book].
  destruct (decide (stack ∈ entry)); [done|].
  by destruct (defaultdict_getitem current_model book).
Qed.

(** [wrapper_func] when the wrapped callable returns. *)
Lemma wrapper_func_Return func args w v w' :
  func args (set_TRACK_FLAG false w) = (Return v, w') →
  wrapper_func func args w = (Return PyNone, set_TRACK_FLAG true w').
Proof.
  intros H. unfold wrapper_func.
  rewrite (bind_Return _ _ w tt (set_TRACK_FLAG false w)) by done.
  rewrite (bind_Return _ _ _ v w') by done.
  by rewrite (bind_Return _ _ w' tt (set_TRACK_FLAG true w')).
Qed.

(** [wrapper_func] when the wrapped callable raises: line 134 is
    never reached. *)
Lemma wrapper_func_Raise func args w e w' :
  func args (set_TRACK_FLAG false w) = (Raise e, w') →
  wrapper_func func args w = (Raise e, w').
Proof.
  intros H. unfold wrapper_func.
  rewrite (bind_Return _ _ w tt (set_TRACK_FLAG false w)) by done.
  by rewrite (bind_Raise _ _ _ e w').
Qed.

(** *** What keeps the ledger invariant *)

Lemma keeps_ledger_mret {A} (a : A) : keeps_ledger (mret a : M Host A).
Proof. intros w Hok. split; [done | apply ledger_extends_refl]. Qed.

Lemma keeps_ledger_lift {A} (o : outcome A) : keeps_ledger (lift o : M Host A).
Proof. intros w Hok. split; [done | apply ledger_extends_refl]. Qed.

Lemma keeps_ledger_set_TRACK_FLAG f :
  keeps_ledger (modify (Host:=Host) (set_TRACK_FLAG f)).
Proof. intros w Hok. split; [done | apply ledger_extends_refl]. Qed.

Lemma keeps_ledger_bind {A B} (m : M Host A) (k : A → M Host B) :
  keeps_ledger m → (∀ a, keeps_ledger (k a)) →
  keeps_ledger (Host:=Host) (m ≫= k).
Proof.
  intros Hm Hk w Hok. destruct (Hm w Hok) as [Hok' Hext].
  unfold mbind, M_bind. destruct (m w) as [[a|e] w']; simpl in *.
  - destruct (Hk a w' Hok') as [Hok'' Hext'].
    split; [done|]. by eapply ledger_extends_trans.
  - done.
Qed.

Lemma capture_keeps_ledger format_stack current_model :
  keeps_ledger (capture_call_stack (Host:=Host) format_stack current_model).
Proof.
  unfold capture_call_stack.
  apply keeps_ledger_bind; [apply keeps_ledger_lift|]. intros stack.
  apply keeps_ledger_bind; [apply record_keeps_ledger|]. intros _.
  apply keeps_ledger_mret.
Qed.

Lemma wrapper_func_keeps_ledger (func : list pyval → M Host pyval) args :
  keeps_ledger (func args) → keeps_ledger (wrapper_func func args).
Proof.
  intros Hf. unfold wrapper_func.
  apply keeps_ledger_bind; [apply keeps_ledger_set_TRACK_FLAG|]. intros _.
  apply keeps_ledger_bind; [done|]. intros _.
  apply keeps_ledger_bind; [apply keeps_ledger_set_TRACK_FLAG|]. intros _.
  apply keeps_ledger_mret.
Qed.

Lemma captures_keep_ledger calls w :
  ledger_ok (STACK_BOOK w) →
  ledger_ok (STACK_BOOK (captures calls w)) ∧
  ledger_extends (STACK_BOOK w) (STACK_BOOK (captures calls w)).
Proof.
  revert w. induction calls as [|[format_stack current_model] rest IH];
    intros w Hok; simpl.
  - split; [done | apply ledger_extends_refl].
  - destruct (capture_keeps_ledger format_stack current_model w Hok) as [Hok' Hext].
    destruct (IH _ Hok') as [Hok'' Hext'].
    split; [done|]. by eapply ledger_extends_trans.
Qed.

End Capture.

(** ** The switch [TRACK_FLAG] *)

Section Gate.

(** C1: with [TRACK_FLAG] disabled, [capture_call_stack] is claimed to
    return at once and leave [STACK_BOOK] unchanged.  The function never
    reads the flag: on the sample stack, with the flag off and an empty
    ledger, the two kept frames are normalised and recorded for the
    class, and both log records are emitted. *)
Theorem capture_call_stack_ignores_disabled_flag :
  TRACK_FLAG suspended = false ∧
  STACK_BOOK suspended = ∅ ∧
  (capture_call_stack ex_stack "Widget" suspended).1 = Return PyNone ∧
  STACK_BOOK (capture_call_stack ex_stack "Widget" suspended).2 !! "Widget"
    = Some [[FrameA; FrameB]] ∧
  length (log (capture_call_stack ex_stack "Widget" suspended).2) = 2.
Proof. by vm_compute. Qed.

(** C2: the wrapper of [donottrack] is claimed to restore the flag on
    every exit path.  When the wrapped callable raises, the exception
    leaves [wrapper_func] before line 134: the flag was [True] before
    the call and is [False] after it. *)
Theorem donottrack_leaves_flag_disabled_on_raise :
  TRACK_FLAG (init tt) = true ∧
  donottrack boom [] (init tt)
    = (Raise (Exception "boom"), set_TRACK_FLAG false (init tt)) ∧
  TRACK_FLAG (donottrack boom [] (init tt)).2 = false.
Proof. by vm_compute. Qed.

End Gate.

(** ** [donottrack] on the normal path *)

Section Decorator.

Context {Host : Type}.
Implicit Types (w : World Host) (func : list pyval → M Host pyval).
Implicit Types (args : list pyval).

(** C9: when the wrapped callable returns normally, whatever value it
    returns, the wrapper returns [None]: line 133 drops the value and
    no [return] follows. *)
Theorem donottrack_returns_None func args w v w' :
  func args (set_TRACK_FLAG false w) = (Return v, w') →
  (donottrack func args w).1 = Return PyNone.
Proof.
  intros H. unfold donottrack.
  by rewrite (wrapper_func_Return func args w v w').
Qed.

(** C10: after a wrapped call returns normally the flag is [True]
    whatever it was before; so, when an enclosing wrapped callable runs
    an inner wrapped one and then [rest], [rest] starts with the flag
    enabled although the enclosing wrapper had disabled it. *)
Theorem donottrack_enables_flag func inner rest args w v w' vi wi :
  func args (set_TRACK_FLAG false w) = (Return v, w') →
  inner args (set_TRACK_FLAG false (set_TRACK_FLAG false w)) = (Return vi, wi) →
  TRACK_FLAG (donottrack func args w).2 = true ∧
  donottrack inner args (set_TRACK_FLAG false w)
  = (Return PyNone, set_TRACK_FLAG true wi) ∧
  donottrack (λ a, donottrack inner a;; rest a) args w
  = (match rest args (set_TRACK_FLAG true wi) with
     | (Return _, w'') => (Return PyNone, set_TRACK_FLAG true w'')
     | (Raise e, w'') => (Raise e, w'')
     end).
Proof.
  intros Hf Hi. unfold donottrack.
  rewrite (wrapper_func_Return func args w v w') by done.
  pose proof (wrapper_func_Return inner args _ vi wi Hi) as Hin.
  rewrite Hin. repeat split.
  destruct (rest args (set_TRACK_FLAG true wi)) as [[v'|e] w''] eqn:Hr.
  - apply (wrapper_func_Return _ args w v' w'').
    by rewrite (bind_Return _ _ _ PyNone (set_TRACK_FLAG true wi)).
  - apply (wrapper_func_Raise _ args w e w'').
    by rewrite (bind_Return _ _ _ PyNone (set_TRACK_FLAG true wi)).
Qed.

End Decorator.

Lemma donottrack_returns_None_witness :
  answer [] (set_TRACK_FLAG false (init tt)) = (Return (PyInt 42), suspended) ∧
  (donottrack answer [] (init tt)).1 = Return PyNone.
Proof.
  split; [reflexivity|].
  apply (donottrack_returns_None answer [] (init tt) (PyInt 42) suspended).
  reflexivity.
Defined.

(** The enclosing callable runs [probe] after the inner wrapped call:
    [probe] finds the flag enabled inside the suspended scope. *)
Lemma donottrack_enables_flag_witness :
  TRACK_FLAG suspended = false ∧
  TRACK_FLAG (donottrack answer [] suspended).2 = true ∧
  donottrack (λ a, donottrack answer a;; probe a) [] (init tt)
  = (Raise (Exception "TRACK_FLAG is True"), init tt).
Proof.
  split; [reflexivity|].
  destruct (donottrack_enables_flag (Host:=unit) answer answer probe
              [] suspended (PyInt 42) suspended (PyInt 42) suspended
              eq_refl eq_refl)
    as (H1 & _ & _).
  split; [exact H1|].
  destruct (donottrack_enables_flag (Host:=unit) answer answer probe
              [] (init tt) (PyInt 42) suspended (PyInt 42) suspended
              eq_refl eq_refl)
    as (_ & _ & H3).
  exact H3.
Defined.

(** ** The ledger *)

Section LedgerClaims.

Context {Host : Type}.
Implicit Types (w : World Host) (C : string) (S : Stack).

Lemma occurrences_absent S (entry : list Stack) :
  S ∉ entry → occurrences S entry = 0.
Proof.
  unfold occurrences. induction entry as [|x entry IH]; [done|].
  intros Hnot. apply not_elem_of_cons in Hnot as [Hne Hnot].
  rewrite filter_cons_False by done. by apply IH.
Qed.

Lemma occurrences_snoc S (entry : list Stack) :
  occurrences S (entry ++ [S]) = Datatypes.S (occurrences S entry).
Proof.
  unfold occurrences. rewrite filter_app, length_app.
  rewrite filter_cons_True by done. simpl. lia.
Qed.

(** C3: recording a stack the class does not hold yet and recording it
    again: the first call runs the body of the [if] (new), the second
    does not (duplicate) and changes nothing, and the entry holds the
    stack exactly once; the scenario of the specification on a fresh
    module, for any two frames. *)
Theorem record_twice_records_once w C S :
  S ∉ ledger_entry C (STACK_BOOK w) →
  (record C S w).1 = Return true ∧
  record C S (record C S w).2 = (Return false, (record C S w).2) ∧
  occurrences S (ledger_entry C (STACK_BOOK (record C S (record C S w).2).2)) = 1 ∧
  ∀ (h : Host) (a b : Frame),
    let w1 := (record "Widget" [a; b] (init h)).2 in
    let w2 := (record "Widget" [a; b] w1).2 in
    let w3 := (record "Widget" [a] w2).2 in
    (record "Widget" [a; b] (init h)).1 = Return true ∧
    (record "Widget" [a; b] w1).1 = Return false ∧
    (record "Widget" [a] w2).1 = Return true ∧
    STACK_BOOK w3 !! "Widget" = Some [[a; b]; [a]].
Proof.
  intros Hnew.
  assert (S ∈ ledger_entry C (STACK_BOOK (record C S w).2)) as Hin.
  { rewrite record_new by done. simpl. rewrite ledger_entry_insert.
    apply elem_of_app. right. by apply list_elem_of_singleton. }
  split; [by rewrite record_new|].
  split; [by apply record_duplicate|].
  split.
  - rewrite (record_duplicate C S _ Hin). simpl.
    rewrite record_new by done. simpl. rewrite ledger_entry_insert.
    rewrite occurrences_snoc. by rewrite occurrences_absent.
  - intros h a b.
    assert ([a; b] ∉ ledger_entry "Widget" (STACK_BOOK (init h))) as H1
      by (unfold ledger_entry; simpl; rewrite lookup_empty; apply not_elem_of_nil).
    rewrite (record_new _ _ _ H1). simpl.
    rewrite (record_duplicate "Widget" [a; b]); simpl;
      [|rewrite ledger_entry_insert; set_solver].
    rewrite record_new; simpl; rewrite ledger_entry_insert.
    + by rewrite lookup_insert_eq.
    + intros Hin'. apply list_elem_of_singleton in Hin'. discriminate.
Qed.

(** C4: every operation of the module keeps the ledger free of
    duplicates and only appends to it: each entry that existed before
    is a prefix of the entry after.  [record] and [capture_call_stack]
    do so outright, a run of captures does, and the wrappers do as long
    as the callable they wrap does. *)
Theorem ledger_invariant_preserved w :
  ledger_ok (STACK_BOOK w) →
  (∀ C S, ledger_step w (record C S w).2) ∧
  (∀ format_stack C, ledger_step w (capture_call_stack format_stack C w).2) ∧
  (∀ calls, ledger_step w (captures calls w)) ∧
  (∀ super format_stack C args,
     (∀ a, keeps_ledger (super a)) →
     ledger_step w (CallStackMixin_save super format_stack C args w).2 ∧
     ledger_step w (CallStackMixin_delete super format_stack C args w).2) ∧
  (∀ super format_stack C,
     keeps_ledger super →
     ledger_step w (CallStackManager_get_query_set super format_stack C w).2) ∧
  (∀ func args,
     keeps_ledger (func args) →
     ledger_step w (donottrack func args w).2).
Proof.
  intros Hok. split; [|split; [|split; [|split; [|split]]]].
  - intros C S. by apply record_keeps_ledger.
  - intros format_stack C. by apply capture_keeps_ledger.
  - intros calls. by apply captures_keep_ledger.
  - intros super format_stack C args Hsuper.
    split; (apply keeps_ledger_bind; [apply capture_keeps_ledger|done|done]).
  - intros super format_stack C Hsuper.
    by apply keeps_ledger_bind; [apply capture_keeps_ledger|done|].
  - intros func args Hfunc. by apply wrapper_func_keeps_ledger.
Qed.

End LedgerClaims.

Lemma ledger_ok_once : ledger_ok (STACK_BOOK once).
Proof.
  apply (capture_keeps_ledger ex_stack "Widget" (init tt)), ledger_ok_empty.
Qed.

(** A second stack for a class that holds one already. *)
Lemma record_twice_records_once_witness :
  ledger_entry "Widget" (STACK_BOOK once) = [[FrameA; FrameB]] ∧
  (record "Widget" [FrameA] once).1 = Return true ∧
  record "Widget" [FrameA] (record "Widget" [FrameA] once).2
  = (Return false, (record "Widget" [FrameA] once).2).
Proof.
  split; [reflexivity|].
  assert ([FrameA] ∉ ledger_entry "Widget" (STACK_BOOK once)) as Hnew.
  { apply (bool_decide_unpack _). vm_compute. exact I. }
  destruct (record_twice_records_once once "Widget" [FrameA] Hnew) as (H1 & H2 & _).
  split; [exact H1 | exact H2].
Defined.

Lemma ledger_invariant_preserved_witness :
  ledger_ok (STACK_BOOK once) ∧
  ledger_step once (capture_call_stack ex_noise "Widget" once).2 ∧
  ledger_step once (donottrack (λ _, capture_call_stack ex_stack "Gadget") [] once).2.
Proof.
  split; [exact ledger_ok_once|].
  destruct (ledger_invariant_preserved once ledger_ok_once) as (_ & Hc & _ & _ & _ & Hd).
  split; [apply Hc|].
  apply Hd. apply capture_keeps_ledger.
Defined.

(** ** The adapters *)

Section Adapters.

Context {Host : Type}.
Implicit Types (w : World Host) (format_stack : list string) (C : string).
Implicit Types (super : list pyval → M Host pyval) (query : M Host pyval).
Implicit Types (args : list pyval).

Lemma temp_call_stack_unparsable format_stack :
  Exists (λ frame, kept frame ∧ ¬ parsable frame)
    (Str.replace_empty Str.newline <$> format_stack) →
  temp_call_stack format_stack = Raise IndexError.
Proof. apply comprehension_unparsable. Qed.

Lemma temp_call_stack_parsable format_stack :
  Forall (λ frame, kept frame → parsable frame)
    (Str.replace_empty Str.newline <$> format_stack) →
  temp_call_stack format_stack
  = Return (frame_fields <$>
              filter kept (Str.replace_empty Str.newline <$> format_stack)).
Proof. apply comprehension_parsable. Qed.

(** The adapters once the capture has returned: the wrapped operation
    runs on the state the capture left, which differs from the state
    before in the ledger and the log only. *)
Lemma adapters_after_capture w format_stack C super query args :
  (capture_call_stack format_stack C w).1 = Return PyNone →
  ∃ w',
    capture_call_stack format_stack C w = (Return PyNone, w') ∧
    host w' = host w ∧ TRACK_FLAG w' = TRACK_FLAG w ∧
    CallStackMixin_save super format_stack C args w = super args w' ∧
    CallStackMixin_delete super format_stack C args w = super args w' ∧
    CallStackManager_get_query_set query format_stack C w = query w'.
Proof.
  intros Hret.
  destruct (temp_call_stack format_stack) as [stack|e] eqn:E.
  - pose proof (capture_Return format_stack C stack w E) as Hc.
    destruct (record_host_flag C stack w) as [Hh Hf].
    eexists. split; [exact Hc|]. split; [exact Hh|]. split; [exact Hf|].
    unfold CallStackMixin_save, CallStackMixin_delete, CallStackManager_get_query_set.
    by rewrite !(bind_Return _ _ w PyNone _ Hc).
  - by rewrite (capture_Raise format_stack C e w E) in Hret.
Qed.

End Adapters.

(** ** The normaliser *)

Section NormalizerClaims.

Implicit Types (frame : string) (format_stack : list string).

Lemma kept_iff frame :
  kept frame ↔ Forall (λ reg, Re.rmatch reg frame = false) REGULAR_EXPS.
Proof.
  unfold kept, excluded. induction REGULAR_EXPS as [|reg regs IH]; simpl.
  - split; [constructor | done].
  - rewrite orb_false_iff, Forall_cons. by rewrite IH.
Qed.

(** An entry of [traceback.format_stack()] whose file name contains
    the module's name is excluded, whatever the rest of it. *)
Lemma excluded_own_module_entry dir ext lineno name line :
  excluded (Str.replace_empty Str.newline
              (format_entry (dir +:+ "call_stack_manager" +:+ ext) lineno name line))
  = true.
Proof.
  unfold format_entry.
  set (tail := ", line " +:+ lineno +:+ ", in " +:+ name +:+ nl +:+ _).
  replace ("  File " +:+ dquote +:+ (dir +:+ "call_stack_manager" +:+ ext)
           +:+ dquote +:+ tail)
    with (("  File " +:+ dquote +:+ dir) +:+ "call_stack_manager"
          +:+ (ext +:+ dquote +:+ tail))
    by (by rewrite !append_assoc).
  apply excluded_own_module_raw.
Qed.

(** C5, as the code has it: the patterns are matched on each entry
    with its line feeds removed, not on the raw entry.  The stack the
    comprehension returns is the tuples of exactly the frames no exclusion
    pattern matches then, in their original order
    (and it does return one when every kept frame has its two commas);
    a frame that names the module [call_stack_manager] is excluded
    whatever else it holds; a trace whose frames are all excluded gives
    the empty stack, and the empty stack is recorded like any other the
    first time a class sees it. *)
Theorem normalizer_keeps_unexcluded_frames :
  (∀ format_stack stack,
     temp_call_stack format_stack = Return stack →
     stack = frame_fields <$>
               filter kept (Str.replace_empty Str.newline <$> format_stack)) ∧
  (∀ format_stack,
     filter kept (Str.replace_empty Str.newline <$> format_stack)
       `sublist_of` (Str.replace_empty Str.newline <$> format_stack) ∧
     ∀ frame,
       frame ∈ filter kept (Str.replace_empty Str.newline <$> format_stack) ↔
       Forall (λ reg, Re.rmatch reg frame = false) REGULAR_EXPS ∧
       frame ∈ (Str.replace_empty Str.newline <$> format_stack)) ∧
  (∀ format_stack,
     Forall (λ frame, kept frame → parsable frame)
       (Str.replace_empty Str.newline <$> format_stack) →
     ∃ stack, temp_call_stack format_stack = Return stack) ∧
  (∀ pre post,
     excluded (Str.replace_empty Str.newline
                 (pre +:+ "call_stack_manager" +:+ post)) = true) ∧
  (∀ dir ext lineno name line,
     excluded (Str.replace_empty Str.newline
                 (format_entry (dir +:+ "call_stack_manager" +:+ ext)
                    lineno name line)) = true) ∧
  (∀ format_stack,
     Forall (λ raw, excluded (Str.replace_empty Str.newline raw) = true)
       format_stack →
     temp_call_stack format_stack = Return [] ∧
     ∀ Host (w : World Host) C,
       [] ∉ ledger_entry C (STACK_BOOK w) →
       (record C [] w).1 = Return true ∧
       ledger_entry C (STACK_BOOK (capture_call_stack format_stack C w).2)
       = ledger_entry C (STACK_BOOK w) ++ [[]]).
Proof.
  split; [|split; [|split; [|split; [|split]]]].
  - intros format_stack stack H. by apply comprehension_return in H as [_ ->].
  - intros format_stack. split; [apply sublist_filter|].
    intros frame. rewrite list_elem_of_filter. by rewrite kept_iff.
  - intros format_stack H. eexists. by apply temp_call_stack_parsable.
  - apply excluded_own_module_raw.
  - apply excluded_own_module_entry.
  - intros format_stack H.
    assert (temp_call_stack format_stack = Return []) as Hnil.
    { apply comprehension_all_excluded. by apply Forall_fmap. }
    split; [done|]. intros Host w C Hnew.
    rewrite (capture_Return format_stack C [] w Hnil).
    rewrite record_new by done. simpl. by rewrite ledger_entry_insert.
Qed.

End NormalizerClaims.

(** The sample trace: the second entry (the interpreter's library) and
    the last (the module itself) go, the other two stay in their order;
    and the trace of noise alone is recorded as the empty stack. *)
Lemma normalizer_keeps_unexcluded_frames_witness :
  temp_call_stack ex_stack = Return [FrameA; FrameB] ∧
  temp_call_stack ex_noise = Return [] ∧
  STACK_BOOK (capture_call_stack ex_noise "Widget" (init tt)).2 !! "Widget"
    = Some [[]].
Proof.
  destruct normalizer_keeps_unexcluded_frames as (H1 & _ & _ & _ & _ & H6).
  split; [|split].
  - rewrite (H1 ex_stack [FrameA; FrameB]); reflexivity.
  - apply H6. repeat constructor.
  - reflexivity.
Defined.

(** ** The three fields of a frame in the layout *)

Section Fields.

Implicit Types (s t a b c : string) (sep : ascii).

Lemma split_absent sep s :
  Str.mem sep s = false → Str.split sep s = [s].
Proof.
  induction s as [|d s IH]; simpl; [done|].
  destruct (Ascii.eqb d sep); simpl; [done|].
  intros H. by rewrite IH.
Qed.

Lemma split_append_sep sep a b :
  Str.mem sep a = false →
  Str.split sep (a +:+ String sep b) = a :: Str.split sep b.
Proof.
  induction a as [|d a IH]; intros H.
  - rewrite append_nil_l. simpl. by rewrite Ascii.eqb_refl.
  - simpl in H. apply orb_false_elim in H as [E H].
    rewrite append_cons. simpl. rewrite E. by rewrite IH.
Qed.

Lemma lstrip_indent indent s :
  Str.lstrip indent = EmptyString →
  Str.lstrip (indent +:+ s) = Str.lstrip s.
Proof.
  induction indent as [|d indent IH]; intros H; [done|].
  simpl in H. destruct (Ascii.is_space d) eqn:E; [|done].
  rewrite append_cons. simpl. rewrite E. by apply IH.
Qed.

Lemma rstrip_append s t :
  Str.rstrip t = t → t ≠ EmptyString → Str.rstrip (s +:+ t) = s +:+ t.
Proof.
  intros Ht Hne. induction s as [|d s IH]; [done|].
  rewrite append_cons. simpl. rewrite IH.
  destruct (s +:+ t) eqn:E; [|done].
  destruct s; [|done]. by change (t = EmptyString) in E.
Qed.

Lemma length_append a b :
  String.length (a +:+ b) = String.length a + String.length b.
Proof.
  induction a as [|d a IH]; [done|].
  rewrite append_cons. simpl. by rewrite IH.
Qed.

Lemma substring_skip a n m s :
  String.substring (String.length a + n) m (a +:+ s) = String.substring n m s.
Proof. induction a as [|d a IH]; [done|]. by rewrite append_cons. Qed.

Lemma substring_prefix b c :
  String.substring 0 (String.length b) (b +:+ c) = b.
Proof.
  induction b as [|d b IH].
  - by destruct c.
  - rewrite append_cons. simpl. by rewrite IH.
Qed.

Lemma substring_all b : String.substring 0 (String.length b) b = b.
Proof. induction b as [|d b IH]; simpl; [done|]. by rewrite IH. Qed.

(** [(a + b + c)[len(a):-len(c)]] is [b]. *)
Lemma slice_middle a b c :
  c ≠ EmptyString →
  Str.slice (a +:+ b +:+ c) (Z.of_nat (String.length a))
    (Some (- Z.of_nat (String.length c))%Z) = b.
Proof.
  intros Hc. unfold Str.slice, Str.slice_index.
  rewrite !length_append.
  assert (0 < String.length c) by (destruct c; simpl; [done | lia]).
  destruct (Z.ltb_spec (Z.of_nat (String.length a)) 0); [lia|].
  destruct (Z.ltb_spec (- Z.of_nat (String.length c)) 0); [|lia].
  replace (Z.to_nat (Z.min _ _)) with (String.length a + 0) by lia.
  replace (Z.to_nat _) with (String.length b) by lia.
  rewrite substring_skip. apply substring_prefix.
Qed.

(** [(a + b)[len(a):]] is [b]. *)
Lemma slice_from a b :
  Str.slice (a +:+ b) (Z.of_nat (String.length a)) None = b.
Proof.
  unfold Str.slice, Str.slice_index. rewrite length_append.
  destruct (Z.ltb_spec (Z.of_nat (String.length a)) 0); [lia|].
  replace (Z.to_nat (Z.min _ _)) with (String.length a + 0) by lia.
  replace (Z.to_nat _) with (String.length b) by lia.
  rewrite substring_skip. apply substring_all.
Qed.

Lemma is_space_not_comma d : Ascii.is_space d = true → Ascii.eqb d Str.comma = false.
Proof. by destruct d as [[] [] [] [] [] [] [] []]. Qed.

Lemma indent_no_comma indent :
  Str.lstrip indent = EmptyString → Str.mem Str.comma indent = false.
Proof.
  induction indent as [|d indent IH]; simpl; [done|].
  destruct (Ascii.is_space d) eqn:E; [|done].
  intros H. rewrite (is_space_not_comma d E). by apply IH.
Qed.

(** The tuple of a frame in the layout. *)
Lemma frame_tuple_layout indent path d n context :
  Str.lstrip indent = EmptyString →
  Str.mem Str.comma path = false →
  Str.mem Str.comma (String d n) = false →
  Str.rstrip (String d n) = String d n →
  Str.mem Str.comma context = false →
  Str.rstrip context = context →
  context ≠ EmptyString →
  frame_tuple (indent +:+ frame_line path (String d n) context)
  = Return (path, n, context).
Proof.
  intros Hind Hpath Hn Hnr Hctx Hctxr Hne.
  assert (indent +:+ frame_line path (String d n) context
          = (indent +:+ "File " +:+ dquote +:+ path +:+ dquote)
            +:+ String Str.comma
                  ((" line " +:+ String d n)
                   +:+ String Str.comma (" in " +:+ context))) as ->.
  { unfold frame_line. by rewrite !append_assoc. }
  assert (Str.mem Str.comma (indent +:+ "File " +:+ dquote +:+ path +:+ dquote)
          = false) as H0
    by (by rewrite !mem_append, Hpath, (indent_no_comma indent Hind)).
  assert (Str.mem Str.comma (" line " +:+ String d n) = false) as H1
    by (by rewrite mem_append, Hn).
  assert (Str.mem Str.comma (" in " +:+ context) = false) as H2
    by (by rewrite mem_append, Hctx).
  unfold frame_tuple.
  rewrite (split_append_sep _ _ _ H0), (split_append_sep _ _ _ H1),
    (split_absent _ _ H2).
  { simpl. unfold Str.strip. repeat f_equal.
    + rewrite lstrip_indent by done.
      change (Str.lstrip ("File " +:+ dquote +:+ path +:+ dquote))
        with ((("File " +:+ dquote) +:+ path) +:+ dquote).
      rewrite (rstrip_append _ dquote) by done.
      change ((("File " +:+ dquote) +:+ path) +:+ dquote)
        with (("File " +:+ dquote) +:+ path +:+ dquote).
      apply (slice_middle ("File " +:+ dquote) path dquote). done.
    + change (Str.lstrip (" line " +:+ String d n))
        with ("line " +:+ String d n).
      rewrite rstrip_append by done.
      apply (slice_from ("line " +:+ String d EmptyString) n).
    + change (Str.lstrip (" in " +:+ context)) with ("in " +:+ context).
      rewrite rstrip_append by done.
      apply (slice_from "in " context). }
Qed.

(** X4: a frame in the layout, indented or not, with a path, a line
    number and a context free of commas and of trailing blanks: the first
    field is the path and the third the context, and the second is the
    line number without its first character. *)
Theorem frame_tuple_frame_line indent path d n context :
  Str.lstrip indent = EmptyString →
  Str.mem Str.comma path = false →
  Str.mem Str.comma (String d n) = false →
  Str.rstrip (String d n) = String d n →
  Str.mem Str.comma context = false →
  Str.rstrip context = context →
  context ≠ EmptyString →
  frame_tuple (indent +:+ frame_line path (String d n) context)
  = Return (path, n, context).
Proof. apply frame_tuple_layout. Qed.

End Fields.

(** C6: the second field is claimed to be the line number as captured.
    The slice of line 75 starts at 6, one past the five characters of
    [line ]: for the entry of line 148 the tuple holds [48], and for a
    frame of line 7 the empty string; path and context come out whole. *)
Theorem frame_tuple_drops_first_digit :
  Str.replace_empty Str.newline ex_entry
    = "  " +:+ frame_line "/edx/app/courseware/models.py" "148" "update" ∧
  kept (Str.replace_empty Str.newline ex_entry) ∧
  temp_call_stack [ex_entry]
    = Return [("/edx/app/courseware/models.py", "48", "update")] ∧
  frame_tuple (frame_line "/edx/app/manage.py" "7" "main")
    = Return ("/edx/app/manage.py", EmptyString, "main").
Proof. by vm_compute. Qed.

(** ** Traces the interpreter formats *)

Section Formatted.

Context {Host : Type}.
Implicit Types (s a b : string) (c sep : ascii) (w : World Host).

Lemma length_split sep s : length (Str.split sep s) = S (Str.count sep s).
Proof.
  induction s as [|d s IH]; simpl; [done|].
  destruct (Ascii.eqb d sep); simpl; [by rewrite IH|].
  destruct (Str.split sep s); simpl in *; done.
Qed.

Lemma count_append c a b :
  Str.count c (a +:+ b) = Str.count c a + Str.count c b.
Proof.
  induction a as [|d a IH]; [done|].
  rewrite append_cons. simpl. rewrite IH. lia.
Qed.

Lemma count_replace_empty c needle s :
  c ≠ needle → Str.count c (Str.replace_empty needle s) = Str.count c s.
Proof.
  intros Hne. induction s as [|d s IH]; simpl; [done|].
  destruct (Ascii.eqb d needle) eqn:E; simpl; rewrite IH; [|done].
  apply Ascii.eqb_eq in E. subst d.
  destruct (Ascii.eqb needle c) eqn:E'; [|done].
  apply Ascii.eqb_eq in E'. by subst.
Qed.

Lemma parsable_count frame : parsable frame ↔ 2 ≤ Str.count Str.comma frame.
Proof. unfold parsable, pieces. rewrite length_split. lia. Qed.

(** The two commas of the layout are always there. *)
Lemma format_entry_parsable filename lineno name line :
  parsable (Str.replace_empty Str.newline (format_entry filename lineno name line)).
Proof.
  rewrite parsable_count, count_replace_empty by done.
  unfold format_entry. rewrite !count_append.
  change (Str.count Str.comma ", line ") with 1.
  change (Str.count Str.comma ", in ") with 1. lia.
Qed.

Lemma format_stack_parsable (frames : list entry) :
  Forall (λ frame, kept frame → parsable frame)
    (Str.replace_empty Str.newline <$> format_stack frames).
Proof.
  unfold format_stack. rewrite <- list_fmap_compose. apply Forall_fmap.
  apply Forall_forall. intros [[[filename lineno] name] line] _ _. simpl.
  apply format_entry_parsable.
Qed.

Lemma capture_formatted_Return w (frames : list entry) C :
  (capture_call_stack (format_stack frames) C w).1 = Return PyNone.
Proof.
  by rewrite (capture_Return _ C _ w
                (temp_call_stack_parsable _ (format_stack_parsable frames))).
Qed.

(** X1: on a trace the interpreter formatted, whatever its frames, the
    comprehension never raises: the capture returns [None], and each
    adapter is the wrapped operation run on the state the capture left,
    with the same host state. *)
Theorem capture_returns_on_formatted_stack w (frames : list entry) C super query args :
  ∃ w',
    capture_call_stack (format_stack frames) C w = (Return PyNone, w') ∧
    host w' = host w ∧
    CallStackMixin_save super (format_stack frames) C args w = super args w' ∧
    CallStackMixin_delete super (format_stack frames) C args w = super args w' ∧
    CallStackManager_get_query_set query (format_stack frames) C w = query w'.
Proof.
  destruct (adapters_after_capture w _ C super query args
              (capture_formatted_Return w frames C))
    as (w' & Hc & Hh & _ & Hs & Hd & Hq).
  by exists w'.
Qed.

(** X2: [capture_call_stack] gives the same outcome and writes the same
    ledger and log whatever the value of [TRACK_FLAG]. *)
Theorem capture_call_stack_never_reads_flag w format_stack C :
  capture_call_stack format_stack C (set_TRACK_FLAG false w)
  = ((capture_call_stack format_stack C (set_TRACK_FLAG true w)).1,
     set_TRACK_FLAG false
       (capture_call_stack format_stack C (set_TRACK_FLAG true w)).2).
Proof.
  rewrite !capture_set_TRACK_FLAG. simpl. by destruct w.
Qed.

(** X3: whenever the wrapped callable raises, the wrapper of
    [donottrack] raises the same exception and leaves the state as the
    callable left it: the flag is not set back. *)
Theorem donottrack_raise_skips_restore (func : list pyval → M Host pyval) args w e w' :
  func args (set_TRACK_FLAG false w) = (Raise e, w') →
  donottrack func args w = (Raise e, w').
Proof. apply wrapper_func_Raise. Qed.

End Formatted.

Lemma donottrack_raise_skips_restore_witness :
  donottrack boom [] once = (Raise (Exception "boom"), set_TRACK_FLAG false once).
Proof.
  apply (donottrack_raise_skips_restore (Host:=unit) boom [] once).
  reflexivity.
Defined.

Lemma frame_tuple_frame_line_witness :
  frame_tuple ("  " +:+ frame_line "/edx/app/courseware/models.py" "148" "update")
  = Return ("/edx/app/courseware/models.py", "48", "update").
Proof.
  apply (frame_tuple_frame_line "  " "/edx/app/courseware/models.py"
           "1"%char "48" "update"); done.
Defined.


(** ** Reading the exclusion patterns *)

Section Patterns.

Implicit Types (s w pre post : string) (p : Re.pattern) (atoms : list Re.atom).

Lemma go_star_inv a p b s :
  Re.go (Re.Star a :: p) b s = true →
  ∃ pre s' b', s = pre +:+ s' ∧ Re.go p b' s' = true.
Proof.
  revert b. induction s as [|c s IH]; intros b H; rewrite go_star in H;
    apply orb_true_iff in H as [H|H].
  - by exists EmptyString, EmptyString, b.
  - done.
  - by exists EmptyString, (String c s), b.
  - apply andb_true_iff in H as [_ H].
    destruct (IH _ H) as (pre & s' & b' & -> & Hs').
    by exists (String c pre), s', b'.
Qed.

Lemma go_atoms_inv atoms p b s :
  Re.go ((Re.One <$> atoms) ++ p) b s = true →
  ∃ w post b', s = w +:+ post ∧ Re.accepts atoms w = true ∧ Re.go p b' post = true.
Proof.
  revert b s. induction atoms as [|a atoms IH]; intros b s H.
  - by exists EmptyString, s, b.
  - cbn [fmap list_fmap app Re.go] in H. destruct s as [|c s]; [done|].
    apply andb_true_iff in H as [Ha H].
    destruct (IH _ _ H) as (w & post & b' & -> & Hw & Hp).
    exists (String c w), post, b'. split; [done|]. split; [|done].
    simpl. by rewrite Ha, Hw.
Qed.

Lemma rmatch_anywhere_inv atoms s :
  Re.rmatch (Re.anywhere atoms) s = true →
  ∃ pre w post, s = pre +:+ w +:+ post ∧ Re.accepts atoms w = true.
Proof.
  unfold Re.rmatch, Re.anywhere. cbn [Re.go andb]. intros H.
  apply go_star_inv in H as (pre & s' & b' & -> & H).
  apply go_atoms_inv in H as (w & post & b'' & -> & Hw & _).
  by exists pre, w, post.
Qed.

Lemma accepts_literal lit w :
  Re.accepts (Re.Lit <$> list_ascii_of_string lit) w = true ↔ w = lit.
Proof.
  revert w. induction lit as [|c lit IH]; intros [|d w]; simpl; try done.
  rewrite andb_true_iff, IH, Ascii.eqb_eq. split.
  - by intros [-> ->].
  - by intros [= -> ->].
Qed.

Lemma rmatch_literal lit s :
  Str.mem Str.newline s = false →
  Re.rmatch (Re.anywhere (Re.Lit <$> list_ascii_of_string lit)) s = true
  ↔ contains lit s.
Proof.
  intros Hs. split.
  - intros H. apply rmatch_anywhere_inv in H as (pre & w & post & -> & Hw).
    apply accepts_literal in Hw as ->. by exists pre, post.
  - intros (pre & post & ->).
    rewrite !mem_append in Hs.
    apply orb_false_elim in Hs as [Hpre Hs].
    apply orb_false_elim in Hs as [_ Hpost].
    apply rmatch_anywhere; [done..|]. by apply accepts_literal.
Qed.

(** X5: the four patterns of [EXCLUDE], read on a frame without line
    feeds: the frame is excluded exactly when it contains [python2],
    any one character and [7], or one of the three literal names. *)
Theorem excluded_iff_contains frame :
  Str.mem Str.newline frame = false →
  excluded frame = true ↔
    (∃ c, contains ("python2" +:+ String c "7") frame) ∨
    contains "call_stack_manager" frame ∨
    contains "<exec_function>" frame ∨
    contains "exec_code_object" frame.
Proof.
  intros Hnl. rewrite excluded_unfold, !orb_true_iff.
  change (Re.compile "^.*call_stack_manager.*$")
    with (Re.anywhere (Re.Lit <$> list_ascii_of_string "call_stack_manager")).
  change (Re.compile "^.*<exec_function>.*$")
    with (Re.anywhere (Re.Lit <$> list_ascii_of_string "<exec_function>")).
  change (Re.compile "^.*exec_code_object.*$")
    with (Re.anywhere (Re.Lit <$> list_ascii_of_string "exec_code_object")).
  rewrite !rmatch_literal by done.
  change (Re.compile "^.*python2.7.*$")
    with (Re.anywhere ((Re.Lit <$> list_ascii_of_string "python2")
                       ++ [Re.AnyChar; Re.Lit "7"%char])).
  assert (Re.rmatch
            (Re.anywhere ((Re.Lit <$> list_ascii_of_string "python2")
                          ++ [Re.AnyChar; Re.Lit "7"%char])) frame = true
          ↔ ∃ c, contains ("python2" +:+ String c "7") frame) as ->.
  { split.
    - intros H. apply rmatch_anywhere_inv in H as (pre & w & post & -> & Hw).
      destruct w as [|c1 [|c2 [|c3 [|c4 [|c5 [|c6 [|c7 [|c8 [|c9 [|]]]]]]]]]];
        simpl in Hw; rewrite ?andb_false_r in Hw; try done.
      do 7 (apply andb_true_iff in Hw as [E Hw]; apply Ascii.eqb_eq in E; subst).
      apply andb_true_iff in Hw as [_ Hw].
      apply andb_true_iff in Hw as [E _]. apply Ascii.eqb_eq in E. subst.
      by exists c8, pre, post.
    - intros (c & pre & post & ->).
      rewrite !mem_append in Hnl.
      apply orb_false_elim in Hnl as [Hpre Hnl].
      apply orb_false_elim in Hnl as [Hw Hpost].
      apply rmatch_anywhere; [done..|].
      simpl in Hw. apply orb_false_elim in Hw as [Hc _].
      rewrite !append_cons, append_nil_l. simpl. by rewrite Hc. }
  intuition discriminate.
Qed.

End Patterns.

Lemma excluded_iff_contains_witness :
  Str.mem Str.newline ex_site = false ∧
  contains "python2.7" ex_site ∧
  excluded ex_site = true.
Proof.
  split; [reflexivity|].
  assert (contains "python2.7" ex_site) as Hin.
  { exists ("  File " +:+ dquote +:+ "/edx/lib/"),
           ("/site.py" +:+ dquote +:+ ", line 3, in run    go()").
    reflexivity. }
  split; [exact Hin|].
  apply (excluded_iff_contains ex_site eq_refl).
  left. by exists "."%char.
Defined.

(** ** One capture, case by case *)

Section Effect.

Context {Host : Type}.
Implicit Types (w : World Host) (format_stack : list string) (C k : string).
Implicit Types (stack : Stack) (book : gmap string (list Stack)).

Lemma normalized_Some format_stack stack :
  normalized format_stack = Some stack ↔ temp_call_stack format_stack = Return stack.
Proof.
  unfold normalized. destruct (temp_call_stack format_stack); split; congruence.
Qed.

Lemma normalized_None format_stack :
  normalized format_stack = None ↔ temp_call_stack format_stack = Raise IndexError.
Proof.
  unfold normalized. destruct (temp_call_stack format_stack) as [stack|e] eqn:E.
  - split; congruence.
  - apply comprehension_raise_IndexError in E as ->. done.
Qed.

(** The whole effect of a capture: nothing when the comprehension
    raises or the stack is known, one insertion and two log records
    otherwise. *)
Lemma capture_effect format_stack C w :
  capture_call_stack format_stack C w =
  match normalized format_stack with
  | None => (Raise IndexError, w)
  | Some stack =>
      if decide (stack ∈ ledger_entry C (STACK_BOOK w)) then (Return PyNone, w)
      else
        let book := <[C := ledger_entry C (STACK_BOOK w) ++ [stack]]> (STACK_BOOK w) in
        (Return PyNone,
         log_info (LogBook book) (log_info (LogNewCall C) (set_STACK_BOOK book w)))
  end.
Proof.
  destruct (normalized format_stack) as [stack|] eqn:E.
  - apply normalized_Some in E. rewrite (capture_Return _ _ stack) by done.
    destruct (decide (stack ∈ ledger_entry C (STACK_BOOK w))) as [Hin|Hin].
    + by rewrite record_duplicate.
    + by rewrite record_new.
  - apply normalized_None in E. by apply capture_Raise.
Qed.

(** The entries after a capture. *)
Lemma capture_entry format_stack C w k :
  ledger_entry k (STACK_BOOK (capture_call_stack format_stack C w).2) =
  match normalized format_stack with
  | Some stack =>
      if decide (C = k) then add_stack (ledger_entry k (STACK_BOOK w)) stack
      else ledger_entry k (STACK_BOOK w)
  | None => ledger_entry k (STACK_BOOK w)
  end.
Proof.
  rewrite capture_effect. destruct (normalized format_stack) as [stack|]; [|done].
  unfold add_stack. destruct (decide (C = k)) as [->|Hne].
  - destruct (decide (stack ∈ ledger_entry k (STACK_BOOK w))); [done|].
    simpl. by rewrite ledger_entry_insert.
  - destruct (decide (stack ∈ ledger_entry C (STACK_BOOK w))); [done|].
    simpl. by rewrite ledger_entry_insert_ne.
Qed.

End Effect.

(** ** Runs of captures from the imported module *)

Section Runs.

Context {Host : Type}.
Implicit Types (w : World Host) (calls : list (list string * string)).
Implicit Types (C k : string) (stack : Stack) (l : list Stack).

Lemma captures_entry calls w k :
  ledger_entry k (STACK_BOOK (captures calls w))
  = foldl add_stack (ledger_entry k (STACK_BOOK w)) (offered k calls).
Proof.
  revert w. induction calls as [|[format_stack C] calls IH]; intros w; [done|].
  simpl. rewrite IH, capture_entry.
  destruct (decide (C = k)) as [->|Hne]; destruct (normalized format_stack); done.
Qed.

Lemma elem_of_first_seen stack l : stack ∈ first_seen l ↔ stack ∈ l.
Proof.
  unfold first_seen. by rewrite elem_of_reverse, elem_of_remove_dups, elem_of_reverse.
Qed.

Lemma first_seen_snoc l stack :
  first_seen (l ++ [stack]) = add_stack (first_seen l) stack.
Proof.
  unfold add_stack.
  destruct (decide (stack ∈ first_seen l)) as [Hin|Hin];
    unfold first_seen in *; rewrite reverse_snoc; simpl.
  - rewrite elem_of_reverse, elem_of_remove_dups in Hin.
    by destruct (decide_rel elem_of stack (reverse l)).
  - rewrite elem_of_reverse, elem_of_remove_dups in Hin.
    destruct (decide_rel elem_of stack (reverse l)); [done|].
    by rewrite reverse_cons.
Qed.

Lemma foldl_add_stack l : foldl add_stack [] l = first_seen l.
Proof.
  induction l as [|stack l IH] using rev_ind; [done|].
  by rewrite foldl_app, first_seen_snoc, <- IH.
Qed.

Lemma first_seen_nil l : first_seen l = [] ↔ l = [].
Proof.
  split; [|by intros ->].
  destruct l as [|stack l]; [done|]. intros H.
  assert (stack ∈ first_seen (stack :: l)) as Hin
    by (apply elem_of_first_seen; left).
  rewrite H in Hin. by apply elem_of_nil in Hin.
Qed.

Lemma capture_no_empty_entry format_stack C w :
  no_empty_entry (STACK_BOOK w) →
  no_empty_entry (STACK_BOOK (capture_call_stack format_stack C w).2).
Proof.
  intros Hne. rewrite capture_effect.
  destruct (normalized format_stack) as [stack|]; [|done].
  destruct (decide (stack ∈ ledger_entry C (STACK_BOOK w))); [done|].
  simpl. intros k l. destruct (decide (C = k)) as [->|Hk].
  - rewrite lookup_insert_eq. intros [= <-]. by destruct (ledger_entry k _).
  - rewrite lookup_insert_ne by done. apply Hne.
Qed.

Lemma captures_no_empty_entry calls w :
  no_empty_entry (STACK_BOOK w) → no_empty_entry (STACK_BOOK (captures calls w)).
Proof.
  revert w. induction calls as [|[format_stack C] calls IH]; intros w Hne; [done|].
  simpl. by apply IH, capture_no_empty_entry.
Qed.

Lemma no_empty_entry_init (h : Host) : no_empty_entry (STACK_BOOK (init h)).
Proof. intros k l H. simpl in H. by rewrite lookup_empty in H. Qed.

(** X6: after any run of captures on the freshly imported module, the
    entry of a class is the list of the stacks the run normalised for that
    class, in call order, each kept at its first occurrence only; captures
    that raised and captures for other classes leave no trace in it. *)
Theorem ledger_entry_after_run calls (h : Host) C :
  ledger_entry C (STACK_BOOK (captures calls (init h)))
  = first_seen (offered C calls).
Proof.
  rewrite captures_entry. unfold ledger_entry at 1. simpl.
  rewrite lookup_empty. apply foldl_add_stack.
Qed.

(** X7: after any run of captures on the freshly imported module, a
    class has a key in [STACK_BOOK] exactly when some capture for it
    returned, its entry is then not empty, and a stack is in the entry
    exactly when some capture of the run for that class normalised to
    it. *)
Theorem ledger_lookup_after_run calls (h : Host) C :
  (STACK_BOOK (captures calls (init h)) !! C = None ↔ offered C calls = []) ∧
  (∀ l, STACK_BOOK (captures calls (init h)) !! C = Some l → l ≠ []) ∧
  (∀ stack,
     stack ∈ ledger_entry C (STACK_BOOK (captures calls (init h))) ↔
     ∃ format_stack,
       (format_stack, C) ∈ calls ∧ temp_call_stack format_stack = Return stack).
Proof.
  pose proof (captures_no_empty_entry calls (init h) (no_empty_entry_init h)) as Hne.
  pose proof (captures_entry calls (init h) C) as He.
  unfold ledger_entry at 2 in He. simpl in He.
  rewrite lookup_empty, foldl_add_stack in He. simpl in He.
  split; [|split].
  - rewrite <- first_seen_nil, <- He. unfold ledger_entry.
    destruct (STACK_BOOK (captures calls (init h)) !! C) as [l|] eqn:E; simpl.
    + split; [done|]. intros ->. by destruct (Hne C [] E).
    + done.
  - intros l. apply Hne.
  - intros stack. rewrite He, elem_of_first_seen. unfold offered.
    rewrite list_elem_of_omap. split.
    + intros ([format_stack C'] & Hin & Hs).
      destruct (decide (C' = C)) as [->|]; [|done].
      apply normalized_Some in Hs. eauto.
    + intros (format_stack & Hin & Hs). exists (format_stack, C).
      split; [done|]. rewrite decide_True by done. by apply normalized_Some.
Qed.

End Runs.

(** ** What a capture writes, and what it leaves alone *)

Section Writes.

Context {Host : Type}.
Implicit Types (w : World Host) (calls : list (list string * string)).
Implicit Types (format_stack : list string) (C k : string) (stack : Stack).

Lemma new_calls_app k (l1 l2 : list log_record) :
  new_calls k (l1 ++ l2) = new_calls k l1 + new_calls k l2.
Proof. unfold new_calls. by rewrite filter_app, length_app. Qed.

Lemma new_calls_pair C k book :
  new_calls k [LogNewCall C; LogBook book] = if decide (C = k) then 1 else 0.
Proof.
  unfold new_calls. destruct (decide (C = k)) as [->|Hne].
  - rewrite filter_cons_True by (simpl; by rewrite bool_decide_eq_true).
    by rewrite filter_cons_False.
  - rewrite filter_cons_False by (simpl; by rewrite bool_decide_eq_true).
    by rewrite filter_cons_False.
Qed.

Lemma capture_new_calls format_stack C w :
  (∀ k, new_calls k (log w) = length (ledger_entry k (STACK_BOOK w))) →
  ∀ k, new_calls k (log (capture_call_stack format_stack C w).2)
       = length (ledger_entry k (STACK_BOOK (capture_call_stack format_stack C w).2)).
Proof.
  intros Hinv k. rewrite capture_effect.
  destruct (normalized format_stack) as [stack|]; [|apply Hinv].
  destruct (decide (stack ∈ ledger_entry C (STACK_BOOK w))); [apply Hinv|].
  simpl. rewrite <- app_assoc. simpl.
  rewrite new_calls_app, new_calls_pair, Hinv.
  destruct (decide (C = k)) as [->|Hne].
  - rewrite ledger_entry_insert, length_app. simpl. lia.
  - rewrite ledger_entry_insert_ne by done. lia.
Qed.

Lemma capture_last_record format_stack C w :
  (log w = [] ∧ STACK_BOOK w = ∅) ∨ last (log w) = Some (LogBook (STACK_BOOK w)) →
  (log (capture_call_stack format_stack C w).2 = [] ∧
   STACK_BOOK (capture_call_stack format_stack C w).2 = ∅) ∨
  last (log (capture_call_stack format_stack C w).2)
  = Some (LogBook (STACK_BOOK (capture_call_stack format_stack C w).2)).
Proof.
  intros Hinv. rewrite capture_effect.
  destruct (normalized format_stack) as [stack|]; [|done].
  destruct (decide (stack ∈ ledger_entry C (STACK_BOOK w))); [done|].
  right. simpl. by rewrite last_snoc.
Qed.

(** X8: after any run of captures on the freshly imported module, the
    log holds exactly one [logging new call] record per stack of each
    class's entry, and its last record, when there is one, is the ledger
    as it stands. *)
Theorem log_matches_ledger_after_run calls (h : Host) :
  (∀ C, new_calls C (log (captures calls (init h)))
        = length (ledger_entry C (STACK_BOOK (captures calls (init h))))) ∧
  ((log (captures calls (init h)) = [] ∧ STACK_BOOK (captures calls (init h)) = ∅) ∨
   last (log (captures calls (init h)))
   = Some (LogBook (STACK_BOOK (captures calls (init h))))).
Proof.
  assert (∀ w,
    (∀ k, new_calls k (log w) = length (ledger_entry k (STACK_BOOK w))) ∧
    ((log w = [] ∧ STACK_BOOK w = ∅) ∨ last (log w) = Some (LogBook (STACK_BOOK w))) →
    (∀ k, new_calls k (log (captures calls w))
          = length (ledger_entry k (STACK_BOOK (captures calls w)))) ∧
    ((log (captures calls w) = [] ∧ STACK_BOOK (captures calls w) = ∅) ∨
     last (log (captures calls w)) = Some (LogBook (STACK_BOOK (captures calls w)))))
    as Hrun.
  { induction calls as [|[format_stack C] calls IH]; intros w [H1 H2]; [done|].
    simpl. apply IH. split.
    - by apply capture_new_calls.
    - by apply capture_last_record. }
  apply Hrun. split.
  - intros C. unfold ledger_entry. simpl. by rewrite lookup_empty.
  - left. done.
Qed.

(** X9: a capture, whether it returns or raises, never writes
    [TRACK_FLAG] or the host state, never touches the key of another
    class, and only ever appends to the log. *)
Theorem capture_call_stack_writes_only_its_class format_stack C w :
  TRACK_FLAG (capture_call_stack format_stack C w).2 = TRACK_FLAG w ∧
  host (capture_call_stack format_stack C w).2 = host w ∧
  (∀ k, k ≠ C →
     STACK_BOOK (capture_call_stack format_stack C w).2 !! k = STACK_BOOK w !! k) ∧
  log w `prefix_of` log (capture_call_stack format_stack C w).2.
Proof.
  rewrite capture_effect.
  destruct (normalized format_stack) as [stack|]; [|done].
  destruct (decide (stack ∈ ledger_entry C (STACK_BOOK w))); [done|].
  simpl. split; [done|]. split; [done|]. split.
  - intros k Hk. by rewrite lookup_insert_ne.
  - rewrite <- app_assoc. by apply prefix_app_r.
Qed.

(** X10: capturing the same trace for the same class again changes
    nothing: the second capture has the outcome of the first and leaves
    the ledger, the log and everything else as the first left them. *)
Theorem capture_call_stack_idempotent format_stack C w :
  capture_call_stack format_stack C (capture_call_stack format_stack C w).2
  = capture_call_stack format_stack C w.
Proof.
  rewrite (capture_effect format_stack C w).
  destruct (normalized format_stack) as [stack|] eqn:E.
  - destruct (decide (stack ∈ ledger_entry C (STACK_BOOK w))) as [Hin|Hin]; simpl.
    + rewrite capture_effect, E. by rewrite decide_True.
    + rewrite capture_effect, E. simpl. rewrite ledger_entry_insert.
      rewrite decide_True; [done|]. apply elem_of_app. right. by left.
  - simpl. by rewrite capture_effect, E.
Qed.

Lemma capture_book format_stack C w :
  STACK_BOOK (capture_call_stack format_stack C w).2 =
  match normalized format_stack with
  | Some stack =>
      if decide (stack ∈ ledger_entry C (STACK_BOOK w)) then STACK_BOOK w
      else <[C := ledger_entry C (STACK_BOOK w) ++ [stack]]> (STACK_BOOK w)
  | None => STACK_BOOK w
  end.
Proof.
  rewrite capture_effect. destruct (normalized format_stack) as [stack|]; [|done].
  by destruct (decide (stack ∈ ledger_entry C (STACK_BOOK w))).
Qed.

(** X11: captures for two different classes commute on the ledger:
    whichever runs first, [STACK_BOOK] ends up the same, and each capture
    has the outcome it has when run alone. *)
Theorem captures_of_distinct_classes_commute tb1 C1 tb2 C2 w :
  C1 ≠ C2 →
  STACK_BOOK (capture_call_stack tb2 C2 (capture_call_stack tb1 C1 w).2).2
  = STACK_BOOK (capture_call_stack tb1 C1 (capture_call_stack tb2 C2 w).2).2 ∧
  (capture_call_stack tb2 C2 (capture_call_stack tb1 C1 w).2).1
  = (capture_call_stack tb2 C2 w).1.
Proof.
  intros Hne. split.
  - rewrite !capture_book.
    destruct (normalized tb1) as [s1|]; destruct (normalized tb2) as [s2|];
      try done.
    destruct (decide (s1 ∈ ledger_entry C1 (STACK_BOOK w))) as [H1|H1];
      destruct (decide (s2 ∈ ledger_entry C2 (STACK_BOOK w))) as [H2|H2];
      rewrite ?ledger_entry_insert_ne by done;
      rewrite ?decide_True by done; rewrite ?decide_False by done; try done.
    by rewrite insert_insert_ne.
  - rewrite !capture_effect.
    destruct (normalized tb2) as [s2|]; [|done].
    assert (ledger_entry C2 (STACK_BOOK (capture_call_stack tb1 C1 w).2)
            = ledger_entry C2 (STACK_BOOK w)) as Hsame.
    { rewrite capture_entry. destruct (normalized tb1); [|done].
      by rewrite decide_False. }
    rewrite <- capture_effect, Hsame.
    by destruct (decide (s2 ∈ ledger_entry C2 (STACK_BOOK w))).
Qed.

(** X12: decorating twice is decorating once: [donottrack (donottrack
    func)] behaves as [donottrack func] on every argument and state,
    whether [func] returns or raises. *)
Theorem donottrack_twice (func : list pyval → M Host pyval) args w :
  donottrack (donottrack func) args w = donottrack func args w.
Proof.
  unfold donottrack.
  destruct (func args (set_TRACK_FLAG false w)) as [[v|e] w'] eqn:E.
  - rewrite (wrapper_func_Return func args w v w' E).
    by rewrite (wrapper_func_Return (wrapper_func func) args w PyNone
                  (set_TRACK_FLAG true w')
                  (wrapper_func_Return func args (set_TRACK_FLAG false w) v w' E)).
  - rewrite (wrapper_func_Raise func args w e w' E).
    by rewrite (wrapper_func_Raise (wrapper_func func) args w e w'
                  (wrapper_func_Raise func args (set_TRACK_FLAG false w) e w' E)).
Qed.

(** X13: a capture made inside a function decorated with [donottrack]
    is recorded and logged exactly as the bare capture: same outcome up
    to the wrapper's [None], same ledger, same log. *)
Theorem donottrack_does_not_suppress_capture format_stack C args w :
  STACK_BOOK (donottrack (λ _, capture_call_stack format_stack C) args w).2
  = STACK_BOOK (capture_call_stack format_stack C w).2 ∧
  log (donottrack (λ _, capture_call_stack format_stack C) args w).2
  = log (capture_call_stack format_stack C w).2 ∧
  (donottrack (λ _, capture_call_stack format_stack C) args w).1
  = (capture_call_stack format_stack C w).1.
Proof.
  unfold donottrack.
  pose proof (capture_set_TRACK_FLAG format_stack C false w) as Hc.
  destruct (capture_call_stack format_stack C w) as [[v|e] w'] eqn:E; simpl in Hc.
  - rewrite (wrapper_func_Return _ args w v _ Hc). simpl.
    rewrite capture_effect in E.
    destruct (normalized format_stack); [|done].
    by destruct (decide (_ ∈ _)); injection E as <- <-.
  - by rewrite (wrapper_func_Raise _ args w e _ Hc).
Qed.

End Writes.

Lemma captures_of_distinct_classes_commute_witness :
  STACK_BOOK (capture_call_stack ex_noise "Gadget"
                (capture_call_stack ex_stack "Widget" (init tt)).2).2
  = STACK_BOOK (capture_call_stack ex_stack "Widget"
                  (capture_call_stack ex_noise "Gadget" (init tt)).2).2.
Proof.
  apply (captures_of_distinct_classes_commute (Host:=unit)
           ex_stack "Widget" ex_noise "Gadget" (init tt)).
  discriminate.
Defined.

(** ** How the normaliser composes *)

Section Compose.

Context {Host : Type}.
Implicit Types (w : World Host) (a b format_stack : list string).
Implicit Types (frame rest : string) (C : string).

Lemma comprehension_app (l1 l2 : list string) :
  comprehension (l1 ++ l2) =
  outcome_bind (comprehension l1) (λ x,
  outcome_bind (comprehension l2) (λ y, Return (x ++ y))).
Proof.
  induction l1 as [|frame l1 IH]; simpl.
  - by destruct (comprehension l2).
  - destruct (excluded frame); [done|].
    destruct (frame_tuple frame) as [fr|e]; simpl; [|done]. rewrite IH.
    destruct (comprehension l1) as [x|e]; simpl; [|done].
    by destruct (comprehension l2).
Qed.

Lemma capture_depends_on_stack a b C w :
  temp_call_stack a = temp_call_stack b →
  capture_call_stack a C w = capture_call_stack b C w.
Proof. intros H. rewrite !capture_effect. unfold normalized. by rewrite H. Qed.

(** X14: the normaliser works frame by frame: the stack of a trace cut
    in two is the stack of the first part followed by the stack of the
    second, and it raises as soon as one part does, the first part
    first. *)
Theorem temp_call_stack_app a b :
  temp_call_stack (a ++ b) =
  match temp_call_stack a with
  | Raise e => Raise e
  | Return x =>
      match temp_call_stack b with
      | Raise e => Raise e
      | Return y => Return (x ++ y)
      end
  end.
Proof. unfold temp_call_stack. rewrite fmap_app. apply comprehension_app. Qed.

(** X15: an entry that an exclusion pattern matches may be added to or
    removed from a trace anywhere without any effect: the trace normalises
    to the same stack, so the capture records, logs and returns the same;
    two call paths that differ only in such entries are one stack. *)
Theorem excluded_entry_is_invisible a noise b :
  excluded (Str.replace_empty Str.newline noise) = true →
  temp_call_stack (a ++ noise :: b) = temp_call_stack (a ++ b) ∧
  ∀ C w, capture_call_stack (a ++ noise :: b) C w = capture_call_stack (a ++ b) C w.
Proof.
  intros Hx.
  assert (temp_call_stack (a ++ noise :: b) = temp_call_stack (a ++ b)) as Heq.
  { unfold temp_call_stack. rewrite !fmap_app, fmap_cons, !comprehension_app.
    simpl. by rewrite Hx. }
  split; [done|]. intros C w. by apply capture_depends_on_stack.
Qed.

(** X16: the subscripts of lines 74-76 raise [IndexError] exactly on a
    frame with fewer than two commas, the empty frame included; every
    other frame gives a tuple, whatever it looks like. *)
Theorem frame_tuple_raises_iff frame :
  (frame_tuple frame = Raise IndexError ↔ Str.count Str.comma frame < 2) ∧
  ((∃ fr, frame_tuple frame = Return fr) ↔ 2 ≤ Str.count Str.comma frame) ∧
  frame_tuple EmptyString = Raise IndexError.
Proof.
  split; [|split; [|done]].
  - rewrite Nat.lt_nge, <- parsable_count. split.
    + intros H Hp. by rewrite frame_tuple_parsable in H.
    + apply frame_tuple_unparsable.
  - rewrite <- parsable_count. split.
    + intros [fr H]. by apply frame_tuple_return in H as [Hp _].
    + intros Hp. eexists. by apply frame_tuple_parsable.
Qed.

Lemma split_append sep (s t : string) :
  Str.split sep (s +:+ String sep t) = Str.split sep s ++ Str.split sep t.
Proof.
  induction s as [|d s IH].
  - rewrite append_nil_l. simpl. by rewrite Ascii.eqb_refl.
  - rewrite append_cons. simpl. destruct (Ascii.eqb d sep); [by rewrite IH|].
    rewrite IH. destruct (Str.split sep s) eqn:E; [|done].
    by apply split_nonempty in E.
Qed.

(** X17: whatever follows a third comma never reaches the tuple: a frame
    that has its two commas gives the same tuple with any text appended
    after a further comma (a source line with a comma in it is cut
    there). *)
Theorem frame_tuple_ignores_after_third_comma frame rest :
  parsable frame →
  frame_tuple (frame +:+ String Str.comma rest) = frame_tuple frame.
Proof.
  unfold parsable, pieces, frame_tuple, getitem. intros Hp.
  rewrite split_append.
  destruct (Str.split Str.comma frame) as [|p0 [|p1 [|p2 l]]]; simpl in *;
    try lia; done.
Qed.

(** X18: two frames in the layout that differ only in the first
    character of their line number give the same tuple, so [record] takes
    the stacks of two such call sites for one. *)
Theorem frame_tuple_merges_line_numbers indent path d d' n context :
  Str.lstrip indent = EmptyString →
  Str.mem Str.comma path = false →
  Str.mem Str.comma (String d n) = false →
  Str.mem Str.comma (String d' n) = false →
  Str.rstrip (String d n) = String d n →
  Str.rstrip (String d' n) = String d' n →
  Str.mem Str.comma context = false →
  Str.rstrip context = context →
  context ≠ EmptyString →
  frame_tuple (indent +:+ frame_line path (String d n) context)
  = frame_tuple (indent +:+ frame_line path (String d' n) context).
Proof.
  intros. by rewrite !frame_tuple_layout.
Qed.

(** X19: the adapters capture before they delegate: when the trace
    normalises to a stack, the wrapped operation of [save], [delete] and
    [get_query_set] starts on a state whose entry for the class already
    holds that stack. *)
Theorem adapters_capture_before_delegating format_stack C stack
    (super : list pyval → M Host pyval) (query : M Host pyval) args w :
  temp_call_stack format_stack = Return stack →
  ∃ w',
    stack ∈ ledger_entry C (STACK_BOOK w') ∧
    CallStackMixin_save super format_stack C args w = super args w' ∧
    CallStackMixin_delete super format_stack C args w = super args w' ∧
    CallStackManager_get_query_set query format_stack C w = query w'.
Proof.
  intros Hs.
  pose proof (capture_Return format_stack C stack w Hs) as Hc.
  assert ((capture_call_stack format_stack C w).1 = Return PyNone) as Hret
    by (by rewrite Hc).
  destruct (adapters_after_capture w format_stack C super query args Hret)
    as (w' & Hc' & _ & _ & H1 & H2 & H3).
  exists w'. split; [|done].
  assert (w' = (capture_call_stack format_stack C w).2) as -> by (by rewrite Hc').
  rewrite capture_entry. apply normalized_Some in Hs. rewrite Hs.
  rewrite decide_True by done. unfold add_stack.
  destruct (decide (stack ∈ ledger_entry C (STACK_BOOK w))); [done|].
  apply elem_of_app. right. by left.
Qed.

End Compose.

(** The library frame of the sample trace, taken out. *)
Lemma excluded_entry_is_invisible_witness :
  temp_call_stack ex_stack
  = temp_call_stack
      [format_entry "/edx/app/manage.py" "12" "<module>" (Some "main()");
       format_entry "/edx/app/courseware/models.py" "148" "update" (Some "self.save()");
       format_entry "/edx/app/openedx/core/lib/call_stack_manager.py" "95" "save" None].
Proof.
  apply (excluded_entry_is_invisible (Host:=unit)
           [format_entry "/edx/app/manage.py" "12" "<module>" (Some "main()")]
           (format_entry "/edx/lib/python2.7/site.py" "3" "run" (Some "go()"))).
  reflexivity.
Defined.

(** A source line with a comma: the context stops there. *)
Lemma frame_tuple_ignores_after_third_comma_witness :
  frame_tuple ("  " +:+ frame_line "/edx/app/manage.py" "12" "main    run(a, b)")
  = frame_tuple ("  " +:+ frame_line "/edx/app/manage.py" "12" "main    run(a").
Proof.
  apply (frame_tuple_ignores_after_third_comma
           ("  " +:+ frame_line "/edx/app/manage.py" "12" "main    run(a") " b)").
  unfold parsable. vm_compute. lia.
Defined.

(** Lines 148 and 248 of the same function. *)
Lemma frame_tuple_merges_line_numbers_witness :
  frame_tuple ("  " +:+ frame_line "/edx/app/courseware/models.py" "148" "update")
  = frame_tuple ("  " +:+ frame_line "/edx/app/courseware/models.py" "248" "update").
Proof.
  apply (frame_tuple_merges_line_numbers "  "
           "/edx/app/courseware/models.py" "1"%char "2"%char "48" "update");
    done.
Defined.

Lemma adapters_capture_before_delegating_witness :
  ∃ w' : World unit,
    [FrameA; FrameB] ∈ ledger_entry "Widget" (STACK_BOOK w') ∧
    CallStackMixin_save probe ex_stack "Widget" [] (init tt) = probe [] w'.
Proof.
  destruct (adapters_capture_before_delegating ex_stack "Widget" [FrameA; FrameB]
              probe (probe []) [] (init tt) eq_refl) as (w' & Hin & Hs & _).
  by exists w'.
Defined.

(** ** From an entry of the interpreter to its tuple *)

Section EndToEnd.

Implicit Types (s filename name line : string) (c d : ascii).

Lemma append_nil_r s : s +:+ EmptyString = s.
Proof. induction s as [|c s IH]; [done|]. rewrite append_cons. by rewrite IH. Qed.

Lemma rstrip_idempotent s : Str.rstrip (Str.rstrip s) = Str.rstrip s.
Proof.
  induction s as [|c s IH]; [done|]. simpl.
  destruct (Str.rstrip s) as [|x r] eqn:E.
  - destruct (Ascii.is_space c) eqn:Hc; [done|]. simpl. by rewrite Hc.
  - simpl in *. by rewrite IH.
Qed.

Lemma mem_lstrip c s : Str.mem c s = false → Str.mem c (Str.lstrip s) = false.
Proof.
  induction s as [|d s IH]; [done|]. simpl.
  destruct (Ascii.is_space d); [|done].
  intros H. apply orb_false_elim in H as [_ H]. by apply IH.
Qed.

Lemma mem_rstrip c s : Str.mem c s = false → Str.mem c (Str.rstrip s) = false.
Proof.
  induction s as [|d s IH]; [done|]. simpl. intros H.
  apply orb_false_elim in H as [Hd H]. specialize (IH H).
  destruct (Str.rstrip s) as [|x r].
  - destruct (Ascii.is_space d); [done|]. simpl. by rewrite Hd.
  - simpl in *. by rewrite Hd, IH.
Qed.

Lemma mem_strip c s : Str.mem c s = false → Str.mem c (Str.strip s) = false.
Proof. intros H. by apply mem_rstrip, mem_lstrip. Qed.

(** X20: an entry the interpreter formats for a frame with a source
    line, made of plain text (no comma, no line feed): without its line
    feeds it is a frame line in the layout, and its tuple is the file
    name, the line number without its first character, and the function
    name followed by four blanks and the stripped source line. *)
Theorem frame_tuple_of_format_entry filename d n name line :
  plain filename → plain (String d n) → plain name → plain line →
  Str.rstrip (String d n) = String d n →
  Str.strip line ≠ EmptyString →
  Str.replace_empty Str.newline
    (format_entry filename (String d n) name (Some line))
  = "  " +:+ frame_line filename (String d n) (name +:+ "    " +:+ Str.strip line) ∧
  frame_tuple (Str.replace_empty Str.newline
                 (format_entry filename (String d n) name (Some line)))
  = Return (filename, n, name +:+ "    " +:+ Str.strip line).
Proof.
  intros [Hfc Hfn] [Hlc Hln] [Hnc Hnn] [Hsc Hsn] Hr Hne.
  assert (Str.replace_empty Str.newline
            (format_entry filename (String d n) name (Some line))
          = "  " +:+ frame_line filename (String d n)
                     (name +:+ "    " +:+ Str.strip line)) as ->.
  { unfold format_entry, frame_line, nl. rewrite !replace_empty_append.
    rewrite (replace_empty_absent _ filename Hfn).
    rewrite (replace_empty_absent _ (String d n) Hln).
    rewrite (replace_empty_absent _ name Hnn).
    rewrite (replace_empty_absent _ (Str.strip line) (mem_strip _ _ Hsn)).
    change (Str.replace_empty Str.newline (String Str.newline EmptyString))
      with EmptyString.
    rewrite append_nil_r. reflexivity. }
  split; [done|].
  apply frame_tuple_layout; try done.
  - rewrite !mem_append, Hnc, (mem_strip _ _ Hsc). done.
  - rewrite <- append_assoc. apply rstrip_append; [|done].
    apply rstrip_idempotent.
  - intros H. destruct name; discriminate.
Qed.

End EndToEnd.

Lemma frame_tuple_of_format_entry_witness :
  frame_tuple (Str.replace_empty Str.newline
                 (format_entry "/edx/app/courseware/models.py" "148" "update"
                    (Some "  self.save()")))
  = Return ("/edx/app/courseware/models.py", "48", "update    self.save()").
Proof.
  apply (frame_tuple_of_format_entry "/edx/app/courseware/models.py"
           "1"%char "48" "update" "  self.save()"); done.
Defined.

(** ** The raw entries and the patterns *)

(** C5 as stated fails: the second entry of the sample trace, with the
    line feed between its two lines, is matched by no pattern ([.] stops
    at a line feed and [$] wants the end), so three raw entries match
    none; yet the comprehension, which matches after removing the line
    feeds, drops it and returns two frames. *)
Lemma raw_entry_is_not_what_is_matched :
  ex_stack !! 1 = Some ex_site_entry ∧
  excluded ex_site_entry = false ∧
  excluded (Str.replace_empty Str.newline ex_site_entry) = true ∧
  length (filter (λ raw, excluded raw = false) ex_stack) = 3 ∧
  temp_call_stack ex_stack = Return [FrameA; FrameB].
Proof. by vm_compute. Qed.

(** ** The adapters on the traces of the interpreter *)

Section Interpreter.

Context {Host : Type}.
Implicit Types (w : World Host) (format_stack : list string) (C : string).
Implicit Types (super : list pyval → M Host pyval) (query : M Host pyval).
Implicit Types (args : list pyval) (frames : list entry).


(** C8: on every trace the interpreter formats, whatever its frames,
    [save], [delete] and [get_query_set] are the wrapped operation run on
    a state with the same host state and flag, and for an operation whose
    outcome depends on the host state only they return the value, or
    raise the failure, of the direct call. *)
Theorem adapters_transparent frames C super query args w :
  reads_host_only (super args) →
  reads_host_only query →
  (∃ w',
     host w' = host w ∧ TRACK_FLAG w' = TRACK_FLAG w ∧
     CallStackMixin_save super (format_stack frames) C args w = super args w' ∧
     CallStackMixin_delete super (format_stack frames) C args w = super args w' ∧
     CallStackManager_get_query_set query (format_stack frames) C w = query w') ∧
  (CallStackMixin_save super (format_stack frames) C args w).1 = (super args w).1 ∧
  (CallStackMixin_delete super (format_stack frames) C args w).1 = (super args w).1 ∧
  (CallStackManager_get_query_set query (format_stack frames) C w).1 = (query w).1.
Proof.
  intros Hsuper Hquery.
  destruct (adapters_after_capture w _ C super query args
              (capture_formatted_Return w frames C))
    as (w' & _ & Hh & Hf & Hs & Hd & Hq).
  split; [by exists w'|]. rewrite Hs, Hd, Hq.
  split; [by apply Hsuper|]. split; [by apply Hsuper | by apply Hquery].
Qed.

End Interpreter.

Lemma reads_host_only_fetch args : reads_host_only (fetch args).
Proof. intros w1 w2 H. simpl. by rewrite H. Qed.

Lemma reads_host_only_boom {Host} args : reads_host_only (boom (Host:=Host) args).
Proof. by intros w1 w2 _. Qed.



(** An operation that returns the host state and one that fails, each
    through an adapter, on the sample trace. *)
Lemma adapters_transparent_witness :
  (fetch [] (init 7%Z)).1 = Return (PyInt 7) ∧
  (CallStackMixin_save fetch (format_stack ex_frames) "Widget" [] (init 7%Z)).1
    = Return (PyInt 7) ∧
  (CallStackManager_get_query_set (boom []) (format_stack ex_frames) "Widget"
     (init 7%Z)).1
    = Raise (Exception "boom").
Proof.
  split; [reflexivity|].
  destruct (adapters_transparent ex_frames "Widget" fetch (boom []) [] (init 7%Z)
              (reads_host_only_fetch []) (reads_host_only_boom []))
    as (_ & Hs & _ & Hq).
  split; [exact Hs | exact Hq].
Defined.
